(** * mcompass firmware: GPS duty cycle and BLE configuration channel

    A shallow embedding of [Firmware/src/impl/gps_impl.cpp] and
    [Firmware/src/impl/bluetooth_impl.cpp].  Static variables and the
    shared [Context] are threaded as explicit state; hardware callbacks
    (NMEA parser events, GATT callbacks, one-shot timers) are functions
    from state to state.  Definitions come first, theorems follow. *)

From Stdlib Require Import ZArith QArith Qround Qabs Qpower.
From Stdlib Require Import List String Ascii Bool Lia Lqa.
Import ListNotations.

Local Open Scope Z_scope.

(* ================================================================== *)
(** ** Floating-point values

    [float] and [double] values are IEEE-754 numbers.  Every finite one
    is a rational, so a finite value is carried as a [Q]; the two zeros
    compare equal and are not told apart by this code.  Comparisons and
    [fmod] are exact on finite operands; the only rounding the sources
    perform is the narrowing of a [double] to a [float]. *)

Module Fp.

Inductive fp : Type :=
| NaN
| PInf
| NInf
| Fin (q : Q).

(** IEEE comparison: [None] is "unordered" (an operand is NaN). *)
Definition fcompare (x y : fp) : option comparison :=
  match x, y with
  | NaN, _ | _, NaN => None
  | PInf, PInf | NInf, NInf => Some Eq
  | PInf, _ | _, NInf => Some Gt
  | NInf, _ | _, PInf => Some Lt
  | Fin a, Fin b => Some (a ?= b)%Q
  end.

(** C's [x <= y] and [x >= y]: false whenever unordered. *)
Definition fle (x y : fp) : bool :=
  match fcompare x y with
  | Some Lt | Some Eq => true
  | _ => false
  end.

Definition fge (x y : fp) : bool :=
  match fcompare x y with
  | Some Gt | Some Eq => true
  | _ => false
  end.

(** Integer and float literals of the sources. *)
Definition of_Z (z : Z) : fp := Fin (inject_Z z).

(** Truncation toward zero. *)
Definition Qtrunc (q : Q) : Z :=
  if Qle_bool 0 q then Qfloor q else Qceiling q.

(** C's [fmod(x, y)]: NaN for a NaN operand, an infinite [x] or a zero
    [y]; [x] itself for an infinite [y]; otherwise the exact remainder
    [x - trunc(x/y) * y], which carries the sign of [x]. *)
Definition fmod (x y : fp) : fp :=
  match x, y with
  | NaN, _ | _, NaN => NaN
  | PInf, _ | NInf, _ => NaN
  | Fin a, PInf | Fin a, NInf => Fin a
  | Fin a, Fin b =>
      if Qeq_bool b 0 then NaN
      else Fin (a - inject_Z (Qtrunc (a / b)) * b)%Q
  end.

Definition pow2 (e : Z) : Q := (2 ^ e)%Q.

(** For [q > 0], the [e] with [2^e <= q < 2^(e+1)]. *)
Definition Qlog2_floor (q : Q) : Z :=
  let e0 := Z.log2 (Qnum q) - Z.log2 (Zpos (Qden q)) in
  if Qle_bool (pow2 e0) q then e0 else e0 - 1.

(** Nearest integer, ties to even. *)
Definition Qround_even (q : Q) : Z :=
  let f := Qfloor q in
  match (q - inject_Z f ?= 1 # 2)%Q with
  | Lt => f
  | Gt => f + 1
  | Eq => if Z.even f then f else f + 1
  end.

(** Narrowing conversion [double -> float] (binary32: 24 significant
    bits, least quantum [2^-149], overflow to infinity from [2^128]),
    rounding to nearest, ties to even. *)
Definition double_to_float (x : fp) : fp :=
  match x with
  | Fin q =>
      if Qeq_bool q 0 then Fin 0
      else
        let a := Qabs q in
        let e := Z.max (Qlog2_floor a - 23) (-149) in
        let r := (inject_Z (Qround_even (a / pow2 e)) * pow2 e)%Q in
        if Qle_bool (pow2 128) r
        then (if Qle_bool 0 q then PInf else NInf)
        else Fin (if Qle_bool 0 q then r else - r)%Q
  | _ => x
  end.

(** A finite value in the closed interval [[lo, hi]]. *)
Definition between (lo hi : Z) (x : fp) : Prop :=
  exists q, x = Fin q /\ (inject_Z lo <= q)%Q /\ (q <= inject_Z hi)%Q.

End Fp.
Import Fp.

(** Wrap-around of a 32-bit and of an 8-bit unsigned integer. *)
Definition u32 (z : Z) : Z := z mod 2 ^ 32.
Definition u8 (z : Z) : Z := z mod 2 ^ 8.

(* ================================================================== *)
(** ** Shared context ([context.h], which is not under src/) *)

Module Ctx.

(** Modelled from the spec: [Location] is declared in [context.h]; the
    spec's data model gives it a latitude and a longitude, both floats,
    and the sources initialise exactly these two fields. *)
Record Location : Type := mkLocation {
  latitude : fp;
  longitude : fp
}.

(** Modelled from the spec: [PointerColor] is declared in [context.h];
    the spec's data model gives it a south and a spawn colour, written
    by the sources from the [int] that [strtol] returned. *)
Record PointerColor : Type := mkPointerColor {
  southColor : Z;
  spawnColor : Z
}.

(** [Event::Source] values the sources name. *)
Inductive Source : Type := SENSOR | BLE.

(** Modelled from the spec: the class [Context] is declared in
    [context.h]; the spec makes one shared context the holder of the
    current and spawn locations, the colour, the model and the GPS
    flags.  The fields are the ones the two source files get or set;
    [isGPSModel] is what the getter of that name answers.  Each
    [set...] below replaces one field. *)
Record Context : Type := mkContext {
  detectGPS : bool;
  isGPSFixed : bool;
  currentLocation : Location;
  spawnLocation : Location;
  subscribeSource : Source;
  color : PointerColor;
  isGPSModel : bool
}.

Definition setDetectGPS (b : bool) (c : Context) : Context :=
  mkContext b (isGPSFixed c) (currentLocation c) (spawnLocation c)
            (subscribeSource c) (color c) (isGPSModel c).

Definition setIsGPSFixed (b : bool) (c : Context) : Context :=
  mkContext (detectGPS c) b (currentLocation c) (spawnLocation c)
            (subscribeSource c) (color c) (isGPSModel c).

Definition setCurrentLocation (l : Location) (c : Context) : Context :=
  mkContext (detectGPS c) (isGPSFixed c) l (spawnLocation c)
            (subscribeSource c) (color c) (isGPSModel c).

Definition setSpawnLocation (l : Location) (c : Context) : Context :=
  mkContext (detectGPS c) (isGPSFixed c) (currentLocation c) l
            (subscribeSource c) (color c) (isGPSModel c).

Definition setSubscribeSource (s : Source) (c : Context) : Context :=
  mkContext (detectGPS c) (isGPSFixed c) (currentLocation c)
            (spawnLocation c) s (color c) (isGPSModel c).

Definition setColor (p : PointerColor) (c : Context) : Context :=
  mkContext (detectGPS c) (isGPSFixed c) (currentLocation c)
            (spawnLocation c) (subscribeSource c) p (isGPSModel c).

End Ctx.
Import Ctx.

(* ================================================================== *)
(** ** One-shot timers and the GPS enable pin *)

(** Level written to a pin by [digitalWrite]. *)
Inductive level : Type := LOW | HIGH.

(** The callbacks the sources hand to [esp_timer_create]. *)
Inductive timer_callback : Type :=
| GpsWake          (* lambda of gps_event_handler *)
| GpsDetectTimeout (* lambda of gps::init *)
| BleIdleTimeout.  (* lambda of ble_server::init *)

(** A timer started with [esp_timer_start_once(handle, timeout_us)]. *)
Record timer : Type := mkTimer {
  callback : timer_callback;
  timeout_us : Z
}.

(** A call that either returns or goes through a failed
    [ESP_ERROR_CHECK], which aborts the firmware. *)
Inductive outcome (A : Type) : Type :=
| Done (a : A)
| Aborted.
Arguments Done {A} a.
Arguments Aborted {A}.

(* ================================================================== *)
(** ** gps_impl.cpp *)

Module Gps.

(** [SleepConfig], declared in a header; the fields are the ones the
    sources read, in the order of the table's initialisers. *)
Record SleepConfig : Type := mkSleepConfig {
  distanceThreshold : fp;
  sleepInterval : Z;
  gpsPowerEn : bool
}.

Definition sleepConfigs : list SleepConfig :=
  [ mkSleepConfig (of_Z 10) 0 true;
    mkSleepConfig (of_Z 50) (5 * 60) false;
    mkSleepConfig (of_Z 100) (10 * 60) false;
    mkSleepConfig (of_Z 200) (15 * 60) false ].

(** The statics of the file, the pin, the timers it has started and
    not yet seen fire, and the context it works on. *)
Record state : Type := mkState {
  gpsSleepInterval : Z;
  logCounter : Z;
  handlerRegistered : bool;
  GPS_EN_PIN : level;
  timers : list timer;
  context : Context
}.

Definition setContext (c : Context) (s : state) : state :=
  mkState (gpsSleepInterval s) (logCounter s) (handlerRegistered s)
          (GPS_EN_PIN s) (timers s) c.

Definition digitalWrite (l : level) (s : state) : state :=
  mkState (gpsSleepInterval s) (logCounter s) (handlerRegistered s)
          l (timers s) (context s).

Definition setGpsSleepInterval (i : Z) (s : state) : state :=
  mkState i (logCounter s) (handlerRegistered s)
          (GPS_EN_PIN s) (timers s) (context s).

Definition esp_timer_start_once (t : timer) (s : state) : state :=
  mkState (gpsSleepInterval s) (logCounter s) (handlerRegistered s)
          (GPS_EN_PIN s) (timers s ++ [t]) (context s).

Definition setHandlerRegistered (b : bool) (s : state) : state :=
  mkState (gpsSleepInterval s) (logCounter s) b
          (GPS_EN_PIN s) (timers s) (context s).

(** State at boot: the static initialisers (one hour, counter zero),
    no handler, no timer, the pin at whatever level the board left
    it. *)
Definition boot (pin : level) (c : Context) : state :=
  mkState (60 * 60) 0 false pin [] c.

(** Lines 121-129: scan from the last entry down, stop at the first
    threshold the distance reaches; [threshholdDistance] keeps its
    initial 0 when no entry matches. *)
Fixpoint scanThreshold (distance : fp) (downward : list SleepConfig) : fp :=
  match downward with
  | [] => of_Z 0
  | c :: rest =>
      if fge distance (distanceThreshold c)
      then distanceThreshold c
      else scanThreshold distance rest
  end.

Definition threshholdDistance (distance : fp) : fp :=
  scanThreshold distance (rev sleepConfigs).

(** Line 130: [float modDistance = fmod(distance, threshholdDistance)]. *)
Definition modDistance (distance : fp) : fp :=
  double_to_float (fmod distance (threshholdDistance distance)).

(** Lines 132-151, the loop's test: the first entry, in table order,
    whose threshold the residual does not exceed. *)
Fixpoint firstWithin (m : fp) (upward : list SleepConfig)
  : option SleepConfig :=
  match upward with
  | [] => None
  | c :: rest =>
      if fle m (distanceThreshold c) then Some c else firstWithin m rest
  end.

Definition selected (distance : fp) : option SleepConfig :=
  firstWithin (modDistance distance) sleepConfigs.

(** Lines 134-148, the loop's body for the entry found.
    [timer_created] is whether [esp_timer_create] returned ESP_OK; it
    is only consulted on the power-off branch. *)
Definition applyConfig (timer_created : bool) (c : SleepConfig) (s : state)
  : outcome state :=
  let s1 := setGpsSleepInterval (sleepInterval c) s in
  if gpsPowerEn c then Done (digitalWrite LOW s1)
  else
    let s2 := digitalWrite HIGH s1 in
    if timer_created
    then Done (esp_timer_start_once
                 (mkTimer GpsWake (u32 (gpsSleepInterval s2 * 1000000))) s2)
    else Aborted.

(** Lines 120-151 as a whole, from the computed distance on. *)
Definition sleepPolicy (timer_created : bool) (distance : fp) (s : state)
  : outcome state :=
  match selected distance with
  | Some c => applyConfig timer_created c s
  | None => Done s
  end.

(** The fields of [gps_t] the handler acts on. *)
Record gps_t : Type := mkGps {
  fix_ : Z;
  gps_latitude : fp;
  gps_longitude : fp
}.

Inductive nmea_event : Type :=
| GPS_UPDATE (g : gps_t)
| GPS_UNKNOWN.

Section Handler.

(** [utils::complexDistance], in kilometres; its body is not under
    src/. *)
Variable complexDistance : fp -> fp -> fp -> fp -> fp.

Definition distanceToSpawn (c : Context) : fp :=
  complexDistance (latitude (currentLocation c))
                  (longitude (currentLocation c))
                  (latitude (spawnLocation c))
                  (longitude (spawnLocation c)).

(** Lines 39-41: every update counts and proves a receiver is
    wired (the log lines in between leave no trace). *)
Definition countUpdate (s : state) : state :=
  mkState (gpsSleepInterval s) (u8 (logCounter s + 1))
          (handlerRegistered s) (GPS_EN_PIN s) (timers s)
          (setDetectGPS true (context s)).

(** Lines 102-112: a fix with a lock is recorded in the context. *)
Definition recordFix (g : gps_t) (s : state) : state :=
  setContext
    (setSubscribeSource SENSOR
       (setCurrentLocation
          (mkLocation (gps_latitude g) (gps_longitude g))
          (setIsGPSFixed true (context s))))
    s.

Definition gps_event_handler (timer_created : bool) (ev : nmea_event)
           (s : state) : outcome state :=
  match ev with
  | GPS_UPDATE g =>
      let s1 := countUpdate s in
      if fix_ g =? 0 then Done s1
      else
        let s2 := recordFix g s1 in
        sleepPolicy timer_created (distanceToSpawn (context s2)) s2
  | GPS_UNKNOWN => Done s
  end.

End Handler.

(** The sleep timer's callback: [digitalWrite(GPS_EN_PIN, LOW)]. *)
Definition gpsSleepTimer_callback (s : state) : state :=
  digitalWrite LOW s.

(** [gps::disable]. *)
Definition disable (s : state) : state :=
  digitalWrite HIGH (setHandlerRegistered false s).

(** The detect timer's callback of [gps::init]. *)
Definition gpsDisableTimer_callback (s : state) : state :=
  if detectGPS (context s) then s else disable s.

(** [gps::init].  [DEFAULT_GPS_DETECT_TIMEOUT], in seconds, is a
    macro that is not under src/. *)
Definition init (DEFAULT_GPS_DETECT_TIMEOUT : Z) (timer_created : bool)
           (s : state) : outcome state :=
  let s1 := setHandlerRegistered true (digitalWrite LOW s) in
  if timer_created
  then Done (esp_timer_start_once
               (mkTimer GpsDetectTimeout
                        (DEFAULT_GPS_DETECT_TIMEOUT * 1000000)) s1)
  else Aborted.

Definition timer_eqb (a b : timer) : bool :=
  match callback a, callback b with
  | GpsWake, GpsWake
  | GpsDetectTimeout, GpsDetectTimeout
  | BleIdleTimeout, BleIdleTimeout => timeout_us a =? timeout_us b
  | _, _ => false
  end.

Fixpoint remove_first (t : timer) (l : list timer) : list timer :=
  match l with
  | [] => []
  | x :: rest => if timer_eqb t x then rest else x :: remove_first t rest
  end.

(** A started timer expires: it is no longer pending and its callback
    runs. *)
Definition expire (t : timer) (s : state) : state :=
  let s1 :=
    mkState (gpsSleepInterval s) (logCounter s) (handlerRegistered s)
            (GPS_EN_PIN s) (remove_first t (timers s)) (context s) in
  match callback t with
  | GpsWake => gpsSleepTimer_callback s1
  | GpsDetectTimeout => gpsDisableTimer_callback s1
  | BleIdleTimeout => s1
  end.

(** [gps::isValidGPSLocation]. *)
Definition isValidGPSLocation (location : Location) : bool :=
  if fge (latitude location) (of_Z (-90)) &&
     fle (latitude location) (of_Z 90) &&
     fge (longitude location) (of_Z (-180)) &&
     fle (longitude location) (of_Z 180)
  then true
  else false.

End Gps.

(* ================================================================== *)
(** ** C and C++ library functions the BLE callbacks call *)

Module CStr.

(** [isspace] in the C locale. *)
Definition isspace (c : ascii) : bool :=
  match c with
  | " " | "009" | "010" | "011" | "012" | "013" => true
  | _ => false
  end%char.

(** Value of a base-16 digit. *)
Definition hexval (c : ascii) : option Z :=
  let n := Z.of_N (N_of_ascii c) in
  if (48 <=? n) && (n <=? 57) then Some (n - 48)
  else if (97 <=? n) && (n <=? 102) then Some (n - 87)
  else if (65 <=? n) && (n <=? 70) then Some (n - 55)
  else None.

Fixpoint skip_space (s : string) : nat * string :=
  match s with
  | String c rest =>
      if isspace c
      then let (n, r) := skip_space rest in (S n, r)
      else (O, s)
  | EmptyString => (O, s)
  end.

(** The run of hex digits at the head of [s]: its value after [acc]
    and how many characters it spans. *)
Fixpoint hex_digits (s : string) (acc : Z) : Z * nat :=
  match s with
  | String c rest =>
      match hexval c with
      | Some d => let (v, n) := hex_digits rest (16 * acc + d) in (v, S n)
      | None => (acc, O)
      end
  | EmptyString => (acc, O)
  end.

Definition LONG_MAX : Z := 2 ^ 31 - 1.
Definition LONG_MIN : Z := - 2 ^ 31.

(** [strtol(nptr, &endptr, 16)] on a target whose [long] has 32 bits:
    white space, an optional sign, an optional [0x] that hex digits
    follow, then the digits; the result saturates.  Returns the value
    and [endptr - nptr], which is 0 when nothing was converted. *)
Definition strtol16 (nptr : string) : Z * nat :=
  let (ws, s1) := skip_space nptr in
  let '(neg, sg, s2) :=
    match s1 with
    | String "-"%char r => (true, 1%nat, r)
    | String "+"%char r => (false, 1%nat, r)
    | _ => (false, O, s1)
    end in
  let (px, s3) :=
    match s2 with
    | String "0"%char (String x (String d r)) =>
        if (Ascii.eqb x "x"%char || Ascii.eqb x "X"%char) &&
           match hexval d with Some _ => true | None => false end
        then (2%nat, String d r)
        else (O, s2)
    | _ => (O, s2)
    end in
  let (v, n) := hex_digits s3 0 in
  match n with
  | O => (0, O)
  | _ => (if neg then Z.max (- v) LONG_MIN else Z.min v LONG_MAX,
          (ws + sg + px + n)%nat)
  end.

(** [std::string::find(c)]. *)
Fixpoint find (c : ascii) (s : string) : option nat :=
  match s with
  | EmptyString => None
  | String a rest =>
      if Ascii.eqb a c then Some O else option_map S (find c rest)
  end.

(** [s.substr(pos, len)] and [s.substr(pos)], for [pos <= s.size()]. *)
Definition substr (s : string) (pos len : nat) : string :=
  String.substring pos len s.

Definition substr_from (s : string) (pos : nat) : string :=
  String.substring pos (String.length s - pos) s.

(** What [std::stof] does: return a float, or throw one of the two
    exceptions the callers catch. *)
Inductive stof_result : Type :=
| Parsed (v : fp)
| invalid_argument
| out_of_range.

(** Modelled from the spec: [utils::split] is not under src/.  The
    spec's colour payload is "one or two comma-separated hex
    integers": the tokens are the pieces between the delimiters, in
    order. *)
Fixpoint split_at (delimiter : ascii) (s : string) : list string :=
  match s with
  | EmptyString => [EmptyString]
  | String a rest =>
      if Ascii.eqb a delimiter
      then EmptyString :: split_at delimiter rest
      else
        match split_at delimiter rest with
        | t :: ts => String a t :: ts
        | [] => [String a EmptyString]
        end
  end.

Definition split (s : string) (delimiter : ascii) : list string :=
  split_at delimiter s.

End CStr.
Import CStr.

(* ================================================================== *)
(** ** bluetooth_impl.cpp *)

Module Ble.

(** [Event::Type] values the sources name, and the event body as far
    as the dispatcher reads it. *)
Inductive EventType : Type := AZIMUTH | FACTORY_RESET | SENSOR_CALIBRATE.

Record Body : Type := mkBody {
  type : EventType;
  source : Source
}.

(** Modelled from the spec: the [preference::] functions are not under
    src/.  The spec has a write "persist" the value: the store keeps
    the last location and the last colour saved. *)
Record Preferences : Type := mkPreferences {
  savedSpawnLocation : Location;
  savedPointerColor : PointerColor
}.

(** The three statics of the file, what the NimBLE server reports and
    has been asked to do, the timers started, the values sent by
    [notify()] (oldest first), the context and the store. *)
Record state : Type := mkState {
  clientConnected : bool;
  serverEnable : bool;
  last_update : Z;
  connectedCount : nat;        (* pServer->getConnectedCount() *)
  advertising : bool;          (* started, and no deinit since *)
  hostStack : bool;            (* NimBLEDevice::init .. deinit *)
  controller : bool;           (* .. esp_bt_controller_disable *)
  dispatcherRegistered : bool; (* ble_azimuth_dispatcher on the event loop *)
  timers : list timer;
  notifications : list Z;
  context : Context;
  preferences : Preferences
}.

Definition boot (c : Context) (p : Preferences) : state :=
  mkState false false 0 O false false false false [] [] c p.

(** The session: whether a peer has ever connected, and what is up. *)
Definition session (s : state) :=
  (clientConnected s, serverEnable s, connectedCount s, advertising s,
   hostStack s, controller s, dispatcherRegistered s, timers s).

(** Advertising, host stack, controller and dispatcher are all up, or
    all torn down. *)
Definition running (s : state) : bool :=
  serverEnable s && advertising s && hostStack s && controller s &&
  dispatcherRegistered s.

Definition tornDown (s : state) : bool :=
  negb (serverEnable s || advertising s || hostStack s || controller s ||
        dispatcherRegistered s).

(** Everything but the context and the store. *)
Definition radio (s : state) :=
  (clientConnected s, serverEnable s, last_update s, connectedCount s,
   advertising s, hostStack s, controller s, dispatcherRegistered s,
   timers s, notifications s).

Definition setContext (c : Context) (s : state) : state :=
  mkState (clientConnected s) (serverEnable s) (last_update s)
          (connectedCount s) (advertising s) (hostStack s) (controller s)
          (dispatcherRegistered s) (timers s) (notifications s)
          c (preferences s).

Definition setPreferences (p : Preferences) (s : state) : state :=
  mkState (clientConnected s) (serverEnable s) (last_update s)
          (connectedCount s) (advertising s) (hostStack s) (controller s)
          (dispatcherRegistered s) (timers s) (notifications s)
          (context s) p.

Definition setLastUpdate (t : Z) (s : state) : state :=
  mkState (clientConnected s) (serverEnable s) t
          (connectedCount s) (advertising s) (hostStack s) (controller s)
          (dispatcherRegistered s) (timers s) (notifications s)
          (context s) (preferences s).

Definition notify (v : Z) (s : state) : state :=
  mkState (clientConnected s) (serverEnable s) (last_update s)
          (connectedCount s) (advertising s) (hostStack s) (controller s)
          (dispatcherRegistered s) (timers s) (notifications s ++ [v])
          (context s) (preferences s).

Definition saveSpawnLocation (l : Location) (s : state) : state :=
  setPreferences (mkPreferences l (savedPointerColor (preferences s))) s.

Definition savePointerColor (p : PointerColor) (s : state) : state :=
  setPreferences (mkPreferences (savedSpawnLocation (preferences s)) p) s.

(** [ServerCallbacks::onConnect]; the server has already counted the
    new peer. *)
Definition onConnect (s : state) : state :=
  mkState true (serverEnable s) (last_update s)
          (S (connectedCount s)) (advertising s) (hostStack s)
          (controller s) (dispatcherRegistered s) (timers s)
          (notifications s) (context s) (preferences s).

(** [ServerCallbacks::onDisconnect]: restarts advertising; the server
    has already dropped the peer.  [clientConnected] is not written. *)
Definition onDisconnect (s : state) : state :=
  mkState (clientConnected s) (serverEnable s) (last_update s)
          (Nat.pred (connectedCount s)) true (hostStack s)
          (controller s) (dispatcherRegistered s) (timers s)
          (notifications s) (context s) (preferences s).

(** [ble_server::deinit]. *)
Definition deinit (s : state) : state :=
  if negb (serverEnable s) || clientConnected s then s
  else
    mkState (clientConnected s) false (last_update s)
            O false false false false (timers s)
            (notifications s) (context s) (preferences s).

(** The lambda of [deinitTimer], lines 395-409. *)
Definition deinitTimer_callback (s : state) : state :=
  match connectedCount s with
  | O =>
      if isGPSModel (context s) &&
         negb (Gps.isValidGPSLocation (spawnLocation (context s)))
      then s
      else deinit s
  | S _ => s
  end.

(** [ble_azimuth_dispatcher].  [now] and [now'] are what the two calls
    of [millis()] return, [azimuth] what [sensor::getAzimuth()]
    returns.  The base service exists from [init] to [deinit]. *)
Definition ble_azimuth_dispatcher (now now' : Z) (evt : Body) (azimuth : Z)
           (s : state) : state :=
  if u32 (now - last_update s) <? 1000 then s
  else
    let s1 := setLastUpdate now' s in
    match type evt with
    | AZIMUTH =>
        if (0 <? connectedCount s1)%nat
        then if hostStack s1 then notify azimuth s1 else s1
        else s1
    | _ => s1
    end.

(** The colour branch of [CharacteristicCallbacks::onWrite]. *)
Definition onWrite_color (value : string) (s : state) : state :=
  let colors := split value ","%char in
  let color0 := color (context s) in
  match colors with
  | [c0] =>
      let (southColor', consumed) := strtol16 c0 in
      let color1 :=
        if (consumed =? 1)%nat
        then mkPointerColor southColor' (spawnColor color0)
        else color0 in
      savePointerColor color1 s
  | c0 :: c1 :: _ =>
      let (southColor', consumed0) := strtol16 c0 in
      let color1 :=
        if (consumed0 =? 0)%nat then color0
        else mkPointerColor southColor' (spawnColor color0) in
      let (spawnColor', consumed1) := strtol16 c1 in
      let color2 :=
        if (consumed1 =? 0)%nat then color1
        else mkPointerColor (southColor color1) spawnColor' in
      let s1 := savePointerColor color2 s in
      setContext (setColor color2 (context s1)) s1
  | [] => s
  end.

Section Callbacks.

(** [std::stof], from the C++ library. *)
Variable stof : string -> stof_result.

(** [DEFAULT_SERVER_TIMEOUT], in seconds; the macro is not under
    src/. *)
Variable DEFAULT_SERVER_TIMEOUT : Z.

(** The spawn branch of [CharacteristicCallbacks::onWrite]: the
    longitude is parsed first; either exception leaves
    [parseSuccess] false. *)
Definition onWrite_spawn (value : string) (s : state) : state :=
  match find ","%char value with
  | Some commaIndex =>
      let latitudeStr := substr value 0 commaIndex in
      let longitudeStr := substr_from value (commaIndex + 1) in
      match stof longitudeStr with
      | Parsed longitude' =>
          match stof latitudeStr with
          | Parsed latitude' =>
              let location := mkLocation latitude' longitude' in
              let s1 := saveSpawnLocation location s in
              setContext (setSpawnLocation location (context s1)) s1
          | _ => s
          end
      | _ => s
      end
  | None => s
  end.

(** The characteristics whose writes are modelled. *)
Inductive characteristic : Type :=
| SPAWN_CHARACTERISTIC
| COLOR_CHARACTERISTIC.

Definition onWrite (chr : characteristic) (value : string) (s : state)
  : state :=
  match chr with
  | SPAWN_CHARACTERISTIC => onWrite_spawn value s
  | COLOR_CHARACTERISTIC => onWrite_color value s
  end.

(** [ble_server::init]: server, services and advertising come up,
    the dispatcher is registered and the idle timer started. *)
Definition init (s : state) : state :=
  mkState (clientConnected s) true (last_update s)
          (connectedCount s) true true true true
          (timers s ++
             [mkTimer BleIdleTimeout (DEFAULT_SERVER_TIMEOUT * 1000000)])
          (notifications s) (context s) (preferences s).

(** An event delivered to the dispatcher: the times, in milliseconds
    since boot, at which its two [millis()] calls are made, the
    body, and the azimuth the sensor then reports. *)
Record delivery : Type := mkDelivery {
  t_check : Z;
  t_stamp : Z;
  body : Body;
  azimuth : Z
}.

(** [millis()] returns a 32-bit [unsigned long]. *)
Definition millis (t : Z) : Z := u32 t.

(** What can happen to the server once [init] has run. *)
Inductive input : Type :=
| Connect
| Disconnect
| GattWrite (chr : characteristic) (value : string)
| Bus (d : delivery)
| ContextWrite (c : Context)   (* another component's setter *)
| IdleTimer.

Definition idleTimerPending (s : state) : bool :=
  existsb (fun t => match callback t with
                    | BleIdleTimeout => true
                    | _ => false
                    end) (timers s).

Definition dropIdleTimer (s : state) : state :=
  mkState (clientConnected s) (serverEnable s) (last_update s)
          (connectedCount s) (advertising s) (hostStack s) (controller s)
          (dispatcherRegistered s)
          (filter (fun t => match callback t with
                            | BleIdleTimeout => false
                            | _ => true
                            end) (timers s))
          (notifications s) (context s) (preferences s).

Definition step (i : input) (s : state) : state :=
  match i with
  | Connect => onConnect s
  | Disconnect => onDisconnect s
  | GattWrite chr value => onWrite chr value s
  | Bus d =>
      if dispatcherRegistered s
      then ble_azimuth_dispatcher (millis (t_check d)) (millis (t_stamp d))
                                  (body d) (azimuth d) s
      else s
  | ContextWrite c => setContext c s
  | IdleTimer => deinitTimer_callback (dropIdleTimer s)
  end.

(** When the environment can produce an input: peers connect to and
    leave a running server, GATT writes come from a connected peer,
    and the one-shot timer fires while it is pending. *)
Definition enabled (i : input) (s : state) : bool :=
  match i with
  | Connect => hostStack s
  | Disconnect => (0 <? connectedCount s)%nat
  | GattWrite _ _ => (0 <? connectedCount s)%nat
  | Bus _ => true
  | ContextWrite _ => true
  | IdleTimer => idleTimerPending s
  end.

Fixpoint run (ins : list input) (s : state) : state :=
  match ins with
  | [] => s
  | i :: rest => run rest (step i s)
  end.

(** A run in which every input is one the environment can produce
    at that point. *)
Fixpoint admissible (ins : list input) (s : state) : bool :=
  match ins with
  | [] => true
  | i :: rest => enabled i s && admissible rest (step i s)
  end.

(** While the idle timer is pending everything is up, and a counted
    peer has set [clientConnected]. *)
Definition sessionInvariant (s : state) : Prop :=
  (idleTimerPending s = true -> running s = true) /\
  (connectedCount s <> O -> clientConnected s = true).

Definition isConnect (i : input) : bool :=
  match i with
  | Connect => true
  | _ => false
  end.

(** The deliveries among the inputs are dispatched within 1000 ms
    from [t0]. *)
Definition inWindow (t0 : Z) (i : input) : Prop :=
  match i with
  | Bus d => t0 <= t_check d < t0 + 1000
  | _ => True
  end.

(** The deliveries among the inputs refresh the stamp, if they do,
    at a time from [lo] to [hi]. *)
Definition stampedBetween (lo hi : Z) (i : input) : Prop :=
  match i with
  | Bus d => lo <= t_stamp d <= hi
  | _ => True
  end.

End Callbacks.

End Ble.

(* ================================================================== *)
(** ** Inputs used in the examples *)

Module Examples.

(** A distance function to run the handler on: the distance along a
    meridian, 111 km to the degree of latitude. *)
Definition meridianDistance (lat1 lon1 lat2 lon2 : fp) : fp :=
  match lat1, lat2 with
  | Fin a, Fin b => Fin (111 * Qabs (a - b))%Q
  | _, _ => NaN
  end.

Definition origin : Location := mkLocation (of_Z 0) (of_Z 0).

(** A context with the spawn location at 0 N 0 E. *)
Definition context0 : Context :=
  mkContext false false origin origin BLE (mkPointerColor 16 32) false.

(** The GPS side once [gps::init] has run at boot, with a 60-second
    detect timeout: pin LOW, handler registered, detect timer
    pending. *)
Definition gps0 : Gps.state :=
  match Gps.init 60 true (Gps.boot HIGH context0) with
  | Done s => s
  | Aborted => Gps.boot HIGH context0
  end.

(** A fix with a lock at the given latitude, on the prime meridian. *)
Definition fixAt (lat : Q) : Gps.gps_t := Gps.mkGps 1 (Fin lat) (of_Z 0).

(** [std::stof] on the strings of the examples: the two decimal
    literals give the nearest float, the other strings do not start
    with a number. *)
Definition stofTable (str : string) : stof_result :=
  if String.eqb str "12.345"
  then Parsed (double_to_float (Fin (12345 # 1000)))
  else if String.eqb str "67.890"
       then Parsed (double_to_float (Fin (67890 # 1000)))
       else invalid_argument.

Definition preferences0 : Ble.Preferences :=
  Ble.mkPreferences origin (mkPointerColor 16 32).

(** The server after [ble_server::init] at boot, with a 60-second
    idle timeout. *)
Definition server0 : Ble.state :=
  Ble.init 60 (Ble.boot context0 preferences0).

(** An azimuth event whose dispatch reads the clock at [t] both
    times, the sensor reporting [a]. *)
Definition azimuthAt (t a : Z) : Ble.input :=
  Ble.Bus (Ble.mkDelivery t t (Ble.mkBody Ble.AZIMUTH SENSOR) a).

End Examples.

(* ================================================================== *)
(** ** The GPS side as a whole: events and expiring timers *)

Module GpsRun.

Import Gps.

Section Run.

Variable complexDistance : fp -> fp -> fp -> fp -> fp.

(** What reaches the GPS side: an event of the NMEA parser (with
    whether a timer can be created while it is handled), or the expiry
    of a timer. *)
Inductive input : Type :=
| Nmea (ev : nmea_event) (timer_created : bool)
| Expire (t : timer).

Definition pending (t : timer) (s : state) : bool :=
  existsb (timer_eqb t) (timers s).

(** A timer of the sleep cycle: its callback powers the receiver on. *)
Definition isWake (t : timer) : bool :=
  match callback t with
  | GpsWake => true
  | _ => false
  end.

(** The parser calls the handler while it is registered
    ([nmea_parser_add_handler] .. [nmea_parser_remove_handler]); a
    timer expires once, while it is pending. *)
Definition deliver (i : input) (s : state) : outcome state :=
  match i with
  | Nmea ev timer_created =>
      if handlerRegistered s
      then gps_event_handler complexDistance timer_created ev s
      else Done s
  | Expire t => if pending t s then Done (expire t s) else Done s
  end.

Fixpoint run (ins : list input) (s : state) : outcome state :=
  match ins with
  | [] => Done s
  | i :: rest =>
      match deliver i s with
      | Done s' => run rest s'
      | Aborted => Aborted
      end
  end.

End Run.

End GpsRun.

(* ================================================================== *)
(** ** Runs of the BLE side in time *)

Module BleRun.

Import Ble.

(** The deliveries among the inputs come in the order of their clock
    readings: each is dispatched no earlier than [from] and than the
    one before it, reads the clock a second time no earlier than the
    first, and all of it happens by [upto]. *)
Fixpoint timeOrdered (from upto : Z) (ins : list input) : Prop :=
  match ins with
  | [] => True
  | Bus d :: rest =>
      from <= t_check d /\ t_check d <= t_stamp d /\ t_stamp d <= upto /\
      timeOrdered (t_stamp d) upto rest
  | _ :: rest => timeOrdered from upto rest
  end.

Definition isGattWrite (i : input) : bool :=
  match i with
  | GattWrite _ _ => true
  | _ => false
  end.

End BleRun.

(* ================================================================== *)
(** ** bluetooth_impl.cpp: the other branches of [onWrite], the event
    loop and the colour value published by [init] *)

Module ServerMode.

(** [ServerMode] values the sources name. *)
Inductive t : Type := WIFI | BLE.

End ServerMode.

Module Gatt.

Import Ble.

(** Modelled from the spec: the settings that the remaining branches of
    [onWrite] hand to [Context] setters, to [preference::] functions
    and to [pixel::setBrightness], none of which is under src/.  Per
    the spec each is "persisted and applied to context": a field holds
    the last value set.  [eventLoop] holds the events posted with
    [esp_event_post_to] and not yet dispatched, oldest first. *)
Record Settings : Type := mkSettings {
  brightness : Z;
  savedBrightness : Z;
  pixelBrightness : Z;
  serverMode : ServerMode.t;
  savedServerMode : ServerMode.t;
  model : Z;
  savedModel : Z;
  eventLoop : list Body
}.

Record state : Type := mkState {
  server : Ble.state;
  settings : Settings
}.

Definition setBrightness (b : Z) (x : Settings) : Settings :=
  mkSettings b b b (serverMode x) (savedServerMode x)
             (model x) (savedModel x) (eventLoop x).

Definition setServerMode (m : ServerMode.t) (x : Settings) : Settings :=
  mkSettings (brightness x) (savedBrightness x) (pixelBrightness x)
             m m (model x) (savedModel x) (eventLoop x).

Definition setModel (m : Z) (x : Settings) : Settings :=
  mkSettings (brightness x) (savedBrightness x) (pixelBrightness x)
             (serverMode x) (savedServerMode x) m m (eventLoop x).

Definition setEventLoop (q : list Body) (x : Settings) : Settings :=
  mkSettings (brightness x) (savedBrightness x) (pixelBrightness x)
             (serverMode x) (savedServerMode x)
             (model x) (savedModel x) q.

Definition setIsGPSModel (b : bool) (c : Context) : Context :=
  mkContext (detectGPS c) (isGPSFixed c) (currentLocation c)
            (spawnLocation c) (subscribeSource c) (color c) b.

(** [value[0]] of a [std::string]: the first byte, and the terminating
    NUL when the string is empty ([char] is unsigned on the target). *)
Definition at0 (value : string) : Z :=
  match value with
  | EmptyString => 0
  | String c _ => Z.of_N (N_of_ascii c)
  end.

(** The characteristics, by the names of their UUID macros. *)
Inductive uuid : Type :=
| SPAWN_CHARACTERISTIC_UUID
| COLOR_CHARACTERISITC_UUID
| VIRTUAL_LOCATION_CHARACTERISTIC_UUID
| VIRTUAL_AZIMUTH_CHARACTERISTIC_UUID
| REBOOT_CHARACTERISTIC_UUID
| SERVER_MODE_CHARACTERISTIC_UUID
| BRIGHTNESS_CHARACTERISTIC_UUID
| CALIBRATE_CHARACTERISTIC_UUID
| CUSTOM_MODEL_CHARACTERISTIC_UUID
| AZIMUTH_CHARACHERSITC_UUID
| INFO_CHARACTERISTIC_UUID.

Section Writes.

Variable stof : string -> stof_result.

(** Modelled from the spec: what [isGPSModel()] answers once
    [setModel] has stored a model ("the device model requires GPS");
    [Context] is not under src/. *)
Variable isGPSModelOf : Z -> bool.

(** [ESP_ERROR_CHECK(esp_event_post_to(...))]: the event joins the
    queue, or the firmware aborts. *)
Definition post (posted : bool) (evt : Body) (s : state) : outcome state :=
  if posted
  then Done (mkState (server s)
                     (setEventLoop (eventLoop (settings s) ++ [evt])
                                   (settings s)))
  else Aborted.

(** [CharacteristicCallbacks::onWrite], all branches, in the order of
    the source; the spawn and colour branches are the ones above. *)
Definition onWrite (posted : bool) (chr : uuid) (value : string)
           (s : state) : outcome state :=
  match chr with
  | SPAWN_CHARACTERISTIC_UUID =>
      Done (mkState (onWrite_spawn stof value (server s)) (settings s))
  | COLOR_CHARACTERISITC_UUID =>
      Done (mkState (onWrite_color value (server s)) (settings s))
  | VIRTUAL_LOCATION_CHARACTERISTIC_UUID => Done s
  | VIRTUAL_AZIMUTH_CHARACTERISTIC_UUID => Done s
  | REBOOT_CHARACTERISTIC_UUID => post posted (mkBody FACTORY_RESET BLE) s
  | SERVER_MODE_CHARACTERISTIC_UUID =>
      if at0 value =? 0
      then Done (mkState (server s)
                         (setServerMode ServerMode.WIFI (settings s)))
      else if at0 value =? 1
           then Done (mkState (server s)
                              (setServerMode ServerMode.BLE (settings s)))
           else Done s
  | BRIGHTNESS_CHARACTERISTIC_UUID =>
      if (String.length value =? 1)%nat
      then Done (mkState (server s) (setBrightness (at0 value) (settings s)))
      else Done s
  | CALIBRATE_CHARACTERISTIC_UUID =>
      post posted (mkBody SENSOR_CALIBRATE BLE) s
  | CUSTOM_MODEL_CHARACTERISTIC_UUID =>
      if (String.length value =? 1)%nat
      then Done (mkState
                   (Ble.setContext
                      (setIsGPSModel (isGPSModelOf (at0 value))
                                     (context (server s)))
                      (server s))
                   (setModel (at0 value) (settings s)))
      else Done s
  | AZIMUTH_CHARACHERSITC_UUID => Done s
  | INFO_CHARACTERISTIC_UUID => Done s
  end.

(** A sequence of writes, each with whether its post can succeed. *)
Fixpoint writes (ws : list (bool * uuid * string)) (s : state)
  : outcome state :=
  match ws with
  | [] => Done s
  | (posted, chr, value) :: rest =>
      match onWrite posted chr value s with
      | Done s' => writes rest s'
      | Aborted => Aborted
      end
  end.

(** The event loop hands its oldest event to the handlers registered
    for [MCOMPASS_EVENT], id 0; in this file that is
    [ble_azimuth_dispatcher], which reads the clock at [t] and [t']
    and the sensor as [azimuth]. *)
Definition dispatchNext (t t' azimuth : Z) (s : state) : state :=
  match eventLoop (settings s) with
  | [] => s
  | evt :: rest =>
      mkState (step stof (Bus (mkDelivery t t' evt azimuth)) (server s))
              (setEventLoop rest (settings s))
  end.

End Writes.

(** Store and context agree on every setting but the colour, the
    brightness has reached the pixel driver, and brightness and model
    are bytes. *)
Definition inSync (s : state) : Prop :=
  savedSpawnLocation (preferences (server s))
  = spawnLocation (context (server s)) /\
  savedBrightness (settings s) = brightness (settings s) /\
  pixelBrightness (settings s) = brightness (settings s) /\
  savedServerMode (settings s) = serverMode (settings s) /\
  savedModel (settings s) = model (settings s) /\
  0 <= brightness (settings s) <= 255 /\
  0 <= model (settings s) <= 255.

(** A digit of [%x]. *)
Definition hexdigit (d : Z) : ascii :=
  if d <? 10 then ascii_of_N (Z.to_N (48 + d))
  else ascii_of_N (Z.to_N (87 + d)).

(** The digits of [n], most significant first, in front of [acc];
    [fuel] bounds their number. *)
Fixpoint hex_aux (fuel : nat) (n : Z) (acc : string) : string :=
  match fuel with
  | O => acc
  | S f =>
      let acc' := String (hexdigit (n mod 16)) acc in
      if n / 16 =? 0 then acc' else hex_aux f (n / 16) acc'
  end.

Definition isDigit (d : Z) : Prop := 0 <= d < 16.

(** The string of a list of digits. *)
Definition hexstr (ds : list Z) : string :=
  fold_right (fun d acc => String (hexdigit d) acc) EmptyString ds.

(** What [sprintf] writes for [%x]: the 32-bit unsigned value in lower
    case hexadecimal, without leading zeros. *)
Definition sprintf_x (v : Z) : string := hex_aux 8 (u32 v) EmptyString.

(** [ble_server::init], lines 294-298: the value the colour
    characteristic is given, [sprintf(colorBuffer, "%x,%x",
    color.spawnColor, color.southColor)]. *)
Definition colorBuffer (c : PointerColor) : string :=
  (sprintf_x (spawnColor c) ++ "," ++ sprintf_x (southColor c))%string.

End Gatt.

(* ================================================================== *)
(** ** More inputs for the examples *)

Module MoreExamples.

Definition settings0 : Gatt.Settings :=
  Gatt.mkSettings 128 128 128 ServerMode.BLE ServerMode.BLE 0 0 [].

(** The BLE side after [init], one peer connected. *)
Definition gatt0 : Gatt.state :=
  Gatt.mkState (Ble.onConnect Examples.server0) settings0.

(** A model byte requires GPS when it is 1. *)
Definition gpsIsOne (m : Z) : bool := m =? 1.

End MoreExamples.

(* ================================================================== *)
(** * Theorems *)

(** ** Facts about the floating-point model *)

Section FpFacts.

Local Open Scope Q_scope.

Lemma fle_Fin (a b : Q) : fle (Fin a) (Fin b) = true <-> a <= b.
Proof.
  unfold fle, fcompare. destruct (a ?= b) eqn:E.
  - apply Qeq_alt in E. split; [lra | reflexivity].
  - apply Qlt_alt in E. split; [lra | reflexivity].
  - apply Qgt_alt in E. split; [discriminate | lra].
Qed.

Lemma fge_Fin (a b : Q) : fge (Fin a) (Fin b) = true <-> b <= a.
Proof.
  unfold fge, fcompare. destruct (a ?= b) eqn:E.
  - apply Qeq_alt in E. split; [lra | reflexivity].
  - apply Qlt_alt in E. split; [discriminate | lra].
  - apply Qgt_alt in E. split; [lra | reflexivity].
Qed.

Lemma fge_Fin_false (a b : Q) : a < b -> fge (Fin a) (Fin b) = false.
Proof.
  intro H. destruct (fge (Fin a) (Fin b)) eqn:E; [|reflexivity].
  apply fge_Fin in E. lra.
Qed.

Lemma fge_Fin_true (a b : Q) : b <= a -> fge (Fin a) (Fin b) = true.
Proof. apply fge_Fin. Qed.

Lemma fle_Fin_false (a b : Q) : b < a -> fle (Fin a) (Fin b) = false.
Proof.
  intro H. destruct (fle (Fin a) (Fin b)) eqn:E; [|reflexivity].
  apply fle_Fin in E. lra.
Qed.

Lemma fle_Fin_true (a b : Q) : a <= b -> fle (Fin a) (Fin b) = true.
Proof. apply fle_Fin. Qed.

(** Nothing is below, at or above a NaN. *)
Lemma fle_NaN_l (y : fp) : fle NaN y = false.
Proof. reflexivity. Qed.

Lemma pow2_pos (e : Z) : 0 < pow2 e.
Proof. apply Qpower_0_lt. reflexivity. Qed.

(** The remainder of non-negative [a] by positive [b] lies in [[0, b)]. *)
Lemma fmod_Fin_bounds (a b : Q) :
  0 <= a -> 0 < b ->
  exists r, fmod (Fin a) (Fin b) = Fin r /\ 0 <= r /\ r < b.
Proof.
  intros Ha Hb. unfold fmod.
  destruct (Qeq_bool b 0) eqn:E.
  { apply Qeq_bool_iff in E. lra. }
  eexists; split; [reflexivity|].
  assert (Hq : 0 <= a / b).
  { apply Qle_shift_div_l; lra. }
  unfold Qtrunc. apply Qle_bool_iff in Hq. rewrite Hq.
  pose proof (Qfloor_le (a / b)) as Hlo.
  pose proof (Qlt_floor (a / b)) as Hhi.
  rewrite inject_Z_plus in Hhi.
  set (f := inject_Z (Qfloor (a / b))) in *.
  assert (Hab : a == (a / b) * b) by (field; lra).
  assert (H1 : f * b <= (a / b) * b) by (apply Qmult_le_compat_r; [exact Hlo | lra]).
  assert (H2 : (a / b) * b < (f + inject_Z 1) * b)
    by (apply Qmult_lt_compat_r; [lra | exact Hhi]).
  change (inject_Z 1) with 1 in H2.
  rewrite <- Hab in H1, H2.
  setoid_replace ((f + 1) * b) with (f * b + b) in H2 by ring.
  clear Hlo Hhi Hq Hab. set (fb := f * b) in *. clearbody fb. lra.
Qed.

(** [Qlog2_floor] does not overshoot. *)
Lemma Qlog2_floor_le (q : Q) : 0 < q -> pow2 (Qlog2_floor q) <= q.
Proof.
  intros Hq. unfold Qlog2_floor.
  destruct (Qle_bool _ q) eqn:E; [apply Qle_bool_iff in E; exact E|].
  clear E. destruct q as [n d]. cbn [Qnum Qden].
  assert (Hn : (0 < n)%Z) by (unfold Qlt in Hq; simpl in Hq; lia).
  destruct (Z.log2_spec n Hn) as [Hn1 _].
  destruct (Z.log2_spec (Zpos d) (Pos2Z.is_pos d)) as [_ Hd2].
  pose proof (Z.log2_nonneg n) as Ha.
  pose proof (Z.log2_nonneg (Zpos d)) as Hb.
  set (a := Z.log2 n) in *. set (b := Z.log2 (Zpos d)) in *.
  unfold pow2. replace (a - b - 1)%Z with (a - Z.succ b)%Z by lia.
  rewrite Qpower_minus by (intro; discriminate).
  change 2 with (inject_Z 2).
  rewrite <- !Zpower_Qpower by lia.
  assert (HB : (0 < 2 ^ Z.succ b)%Z) by (apply Z.pow_pos_nonneg; lia).
  assert (HA : (0 < 2 ^ a)%Z) by (apply Z.pow_pos_nonneg; lia).
  apply Qle_shift_div_r.
  - change 0 with (inject_Z 0). rewrite <- Zlt_Qlt. exact HB.
  - unfold Qle, Qmult, inject_Z; cbn [Qnum Qden].
    rewrite Pos.mul_1_r. nia.
Qed.

Lemma Qlog2_floor_lt (q : Q) (k : Z) :
  0 < q -> q < pow2 k -> (Qlog2_floor q < k)%Z.
Proof.
  intros Hq Hk. pose proof (Qlog2_floor_le q Hq) as H.
  apply Qpower_lt_compat_l_inv with (q := 2); [|reflexivity].
  unfold pow2 in *. lra.
Qed.

(** Rounding to the nearest integer stays within integer bounds. *)
Lemma Qround_even_le (q : Q) (k : Z) :
  q <= inject_Z k -> (Qround_even q <= k)%Z.
Proof.
  intros H. unfold Qround_even.
  pose proof (Qfloor_resp_le _ _ H) as Hf. rewrite Qfloor_Z in Hf.
  destruct (Z.eq_dec (Qfloor q) k) as [Heq|Hne].
  - assert (Hc : (q - inject_Z (Qfloor q) ?= 1 # 2) = Lt).
    { rewrite <- Qlt_alt, Heq. lra. }
    rewrite Hc. lia.
  - destruct (_ ?= _); [destruct (Z.even _)| |]; lia.
Qed.

Lemma Qround_even_nonneg (q : Q) : 0 <= q -> (0 <= Qround_even q)%Z.
Proof.
  intros H. unfold Qround_even.
  pose proof (Qfloor_resp_le _ _ H) as Hf. change (Qfloor 0) with 0%Z in Hf.
  destruct (_ ?= _); [destruct (Z.even _)| |]; lia.
Qed.

Lemma Qabs_nonneg_eq (q : Q) : 0 <= q -> Qabs q = q.
Proof.
  destruct q as [n d]. unfold Qle, Qabs; cbn [Qnum Qden]. intros H.
  f_equal. apply Z.abs_eq. lia.
Qed.

(** Below [2^24] the quantum of binary32 divides 1: a value rounds to
    a multiple of [2^e] with [e <= 0], so no integer bound is crossed. *)
Lemma round_quantum_le (q : Q) (e k : Z) :
  (e <= 0)%Z -> 0 <= q -> q <= inject_Z k ->
  inject_Z (Qround_even (q / pow2 e)) * pow2 e <= inject_Z k.
Proof.
  intros He Hq Hk.
  pose proof (pow2_pos e) as Hp.
  assert (HP : inject_Z (2 ^ (- e)) * pow2 e == 1).
  { rewrite Zpower_Qpower by lia. change (inject_Z 2) with 2.
    unfold pow2. rewrite <- Qpower_plus by (intro; discriminate).
    replace (- e + e)%Z with 0%Z by lia. reflexivity. }
  set (P := (2 ^ (- e))%Z) in *. set (p := pow2 e) in *.
  assert (Hdiv : q / p <= inject_Z (k * P)).
  { apply Qle_shift_div_r; [exact Hp|].
    rewrite inject_Z_mult, <- Qmult_assoc, HP. lra. }
  apply Qround_even_le in Hdiv.
  rewrite Zle_Qle, inject_Z_mult in Hdiv.
  assert (H : inject_Z (Qround_even (q / p)) * p
              <= inject_Z k * inject_Z P * p)
    by (apply Qmult_le_compat_r; lra).
  rewrite <- Qmult_assoc, HP in H. lra.
Qed.

Lemma round_quantum_nonneg (q : Q) (e : Z) :
  0 <= q -> 0 <= inject_Z (Qround_even (q / pow2 e)) * pow2 e.
Proof.
  intros Hq. pose proof (pow2_pos e) as Hp.
  apply Qmult_le_0_compat; [|lra].
  change 0 with (inject_Z 0). rewrite <- Zle_Qle.
  apply Qround_even_nonneg. apply Qle_shift_div_l; lra.
Qed.

(** Narrowing a non-negative double below [2^24] gives a finite float
    on the same side of every integer bound. *)
Lemma double_to_float_le (q : Q) (k : Z) :
  0 <= q -> q < pow2 24 -> q <= inject_Z k ->
  exists r, double_to_float (Fin q) = Fin r /\ 0 <= r /\ r <= inject_Z k.
Proof.
  intros H0 H24 Hk. unfold double_to_float.
  destruct (Qeq_bool q 0) eqn:E.
  { exists 0. repeat split; lra. }
  apply Qeq_bool_neq in E.
  assert (Hpos : 0 < q) by lra.
  rewrite (Qabs_nonneg_eq q H0).
  pose proof (Qlog2_floor_lt q 24 Hpos H24) as Hl.
  set (e := Z.max (Qlog2_floor q - 23) (-149)).
  assert (He : (e <= 0)%Z) by lia.
  pose proof (round_quantum_le q e k He H0 Hk) as Hr.
  pose proof (round_quantum_le q e (2 ^ 24) He H0) as Hr24.
  pose proof (round_quantum_nonneg q e H0) as Hr0.
  set (r := inject_Z (Qround_even (q / pow2 e)) * pow2 e) in *.
  assert (Hov : Qle_bool (pow2 128) r = false).
  { destruct (Qle_bool (pow2 128) r) eqn:Eo; [|reflexivity].
    apply Qle_bool_iff in Eo.
    assert (H1 : pow2 24 == inject_Z (2 ^ 24)) by reflexivity.
    assert (H2 : r <= inject_Z (2 ^ 24)) by (apply Hr24; rewrite <- H1; lra).
    assert (H3 : pow2 24 < pow2 128) by reflexivity.
    rewrite <- H1 in H2. clear - Eo H2 H3.
    set (a := pow2 24) in *. set (b := pow2 128) in *. lra. }
  rewrite Hov.
  assert (Hs : Qle_bool 0 q = true) by (apply Qle_bool_iff; exact H0).
  rewrite Hs. exists r. repeat split; assumption.
Qed.

End FpFacts.

(** ** The sleep policy of the GPS fix handler *)

Section GpsFacts.

Import Gps.
Local Open Scope Q_scope.

(** Below the first threshold no entry matches the downward scan and
    [threshholdDistance] keeps its initial 0. *)
Lemma threshholdDistance_below (d : Q) :
  d < 10 -> threshholdDistance (Fin d) = of_Z 0.
Proof.
  intros H. unfold threshholdDistance, sleepConfigs, of_Z.
  cbn [rev app scanThreshold distanceThreshold].
  rewrite !fge_Fin_false by (unfold inject_Z; lra). reflexivity.
Qed.

(** From the first threshold on, the scan returns a table threshold
    that the distance reaches. *)
Lemma threshholdDistance_from_first (d : Q) :
  10 <= d ->
  exists t : Z,
    threshholdDistance (Fin d) = of_Z t /\
    In t [10; 50; 100; 200]%Z /\ inject_Z t <= d.
Proof.
  intros H. unfold threshholdDistance, sleepConfigs, of_Z.
  cbn [rev app scanThreshold distanceThreshold].
  destruct (fge (Fin d) (Fin (inject_Z 200))) eqn:E200.
  { exists 200%Z. apply fge_Fin in E200. cbn. intuition. }
  destruct (fge (Fin d) (Fin (inject_Z 100))) eqn:E100.
  { exists 100%Z. apply fge_Fin in E100. cbn. intuition. }
  destruct (fge (Fin d) (Fin (inject_Z 50))) eqn:E50.
  { exists 50%Z. apply fge_Fin in E50. cbn. intuition. }
  rewrite fge_Fin_true by (unfold inject_Z; lra).
  exists 10%Z. cbn. unfold inject_Z. intuition.
Qed.

(** The modulus 0 makes the residual a NaN. *)
Lemma modDistance_below (d : Q) : d < 10 -> modDistance (Fin d) = NaN.
Proof.
  intros H. unfold modDistance. rewrite threshholdDistance_below by exact H.
  reflexivity.
Qed.

(** A NaN residual is within no threshold: the second loop runs off
    the table. *)
Lemma firstWithin_NaN (l : list SleepConfig) : firstWithin NaN l = None.
Proof. induction l as [|c l IH]; [reflexivity|exact IH]. Qed.

Lemma selected_below (d : Q) : d < 10 -> selected (Fin d) = None.
Proof.
  intros H. unfold selected. rewrite modDistance_below by exact H.
  apply firstWithin_NaN.
Qed.

Lemma firstWithin_In (m : fp) (l : list SleepConfig) (c : SleepConfig) :
  firstWithin m l = Some c -> In c l.
Proof.
  induction l as [|x l IH]; cbn; [discriminate|].
  destruct (fle m (distanceThreshold x)).
  - intros [= ->]. now left.
  - intros H. right. exact (IH H).
Qed.

Lemma selected_In (x : fp) (c : SleepConfig) :
  selected x = Some c -> In c sleepConfigs.
Proof. apply firstWithin_In. Qed.

(** From the first threshold on the residual is finite and below 200,
    so the second loop always finds an entry. *)
Lemma selected_from_first (d : Q) :
  10 <= d -> exists c, selected (Fin d) = Some c /\ In c sleepConfigs.
Proof.
  intros H.
  destruct (threshholdDistance_from_first d H) as (t & Ht & Hin & Hle).
  assert (Ht200 : (0 < t <= 200)%Z) by (cbn in Hin; lia).
  destruct (fmod_Fin_bounds d (inject_Z t)) as (r & Hr & Hr0 & Hrt).
  { lra. }
  { change 0 with (inject_Z 0). rewrite <- Zlt_Qlt. lia. }
  assert (Hr200 : r <= inject_Z 200).
  { assert (inject_Z t <= inject_Z 200) by (rewrite <- Zle_Qle; lia). lra. }
  destruct (double_to_float_le r 200 Hr0) as (m & Hm & Hm0 & Hm200).
  { assert (inject_Z 200 < pow2 24) by reflexivity. lra. }
  { exact Hr200. }
  assert (Hsome : exists c, selected (Fin d) = Some c).
  { unfold selected, modDistance. rewrite Ht. unfold of_Z. rewrite Hr, Hm.
    unfold sleepConfigs, of_Z. cbn [firstWithin distanceThreshold].
    destruct (fle (Fin m) (Fin (inject_Z 10))); [eauto|].
    destruct (fle (Fin m) (Fin (inject_Z 50))); [eauto|].
    destruct (fle (Fin m) (Fin (inject_Z 100))); [eauto|].
    rewrite fle_Fin_true by exact Hm200. eauto. }
  destruct Hsome as [c Hc]. exists c. split; [exact Hc|].
  eapply selected_In; exact Hc.
Qed.

(** The timer length never wraps: every table interval, in
    microseconds, fits 32 bits. *)
Lemma table_interval_fits (c : SleepConfig) :
  In c sleepConfigs ->
  u32 (sleepInterval c * 1000000) = (sleepInterval c * 1000000)%Z.
Proof.
  cbn. intros [<-|[<-|[<-|[<-|[]]]]]; reflexivity.
Qed.

Lemma table_intervals :
  map sleepInterval sleepConfigs = [0; 300; 600; 900]%Z.
Proof. reflexivity. Qed.

(** What the body of the second loop does to the state. *)
Lemma applyConfig_power_on (tc : bool) (c : SleepConfig) (s : state) :
  gpsPowerEn c = true ->
  applyConfig tc c s
  = Done (digitalWrite LOW (setGpsSleepInterval (sleepInterval c) s)).
Proof. intros H. unfold applyConfig. rewrite H. reflexivity. Qed.

Lemma applyConfig_power_off (c : SleepConfig) (s : state) :
  gpsPowerEn c = false ->
  applyConfig true c s
  = Done (esp_timer_start_once
            (mkTimer GpsWake (u32 (sleepInterval c * 1000000)))
            (digitalWrite HIGH (setGpsSleepInterval (sleepInterval c) s))).
Proof. intros H. unfold applyConfig. rewrite H. reflexivity. Qed.

(** Outside the first band the interval left behind is a table
    interval. *)
Lemma sleepPolicy_interval_in_table (d : Q) (s : state) :
  10 <= d ->
  exists s', sleepPolicy true (Fin d) s = Done s' /\
             In (gpsSleepInterval s') (map sleepInterval sleepConfigs).
Proof.
  intros H. destruct (selected_from_first d H) as (c & Hc & Hin).
  unfold sleepPolicy. rewrite Hc. unfold applyConfig.
  destruct (gpsPowerEn c); eexists; (split; [reflexivity|]);
    cbn [gpsSleepInterval digitalWrite setGpsSleepInterval
         esp_timer_start_once]; apply in_map; exact Hin.
Qed.

(** Exactly at the first threshold the first entry is selected. *)
Lemma selected_at_first (d : Q) :
  d == 10 -> selected (Fin d) = Some (mkSleepConfig (of_Z 10) 0 true).
Proof.
  intros Hd. unfold selected, modDistance.
  assert (Ht : threshholdDistance (Fin d) = of_Z 10).
  { unfold threshholdDistance, sleepConfigs, of_Z.
    cbn [rev app scanThreshold distanceThreshold].
    rewrite !fge_Fin_false by (unfold inject_Z; lra).
    rewrite fge_Fin_true by (unfold inject_Z; lra). reflexivity. }
  rewrite Ht. unfold of_Z, fmod.
  change (Qeq_bool (inject_Z 10) 0) with false. cbv iota.
  unfold double_to_float.
  assert (Hz : Qeq_bool (d - inject_Z (Qtrunc (d / inject_Z 10))
                              * inject_Z 10) 0 = true).
  { apply Qeq_bool_iff. unfold Qtrunc.
    assert (Hq : d / inject_Z 10 == 1) by (rewrite Hd; reflexivity).
    rewrite Hq. change (Qle_bool 0 1) with true. cbv iota.
    rewrite (Qfloor_comp _ _ Hq). change (Qfloor 1) with 1%Z.
    unfold inject_Z. lra. }
  rewrite Hz. reflexivity.
Qed.

Variable complexDistance : fp -> fp -> fp -> fp -> fp.

(** A fix with a lock runs the sleep policy on the recorded fix. *)
Lemma handler_valid_fix (tc : bool) (g : gps_t) (s : state) :
  fix_ g <> 0%Z ->
  gps_event_handler complexDistance tc (GPS_UPDATE g) s
  = sleepPolicy tc
      (distanceToSpawn complexDistance (context (recordFix g (countUpdate s))))
      (recordFix g (countUpdate s)).
Proof.
  intros H. unfold gps_event_handler.
  destruct (Z.eqb_spec (fix_ g) 0) as [E|_]; [contradiction|reflexivity].
Qed.

(** Recording a fix touches neither the interval, the pin nor the
    timers. *)
Lemma recordFix_frame (g : gps_t) (s : state) :
  gpsSleepInterval (recordFix g (countUpdate s)) = gpsSleepInterval s /\
  GPS_EN_PIN (recordFix g (countUpdate s)) = GPS_EN_PIN s /\
  timers (recordFix g (countUpdate s)) = timers s.
Proof. repeat split. Qed.

End GpsFacts.

(** ** Claims about the GPS side *)

Section GpsClaims.

Import Gps.
Local Open Scope Q_scope.

(** C1 (defect in the code).  For every distance [0 <= d < 10] the
    band-selection step finds no entry and leaves [threshholdDistance]
    at its initial 0: the band threshold is not the first configured
    threshold 10, and as the modulus of [fmod] the 0 makes the
    residual a NaN. *)
Theorem band_threshold_below_first_is_zero (d : Q) :
  0 <= d -> d < 10 ->
  threshholdDistance (Fin d) = of_Z 0 /\
  threshholdDistance (Fin d) <> of_Z 10 /\
  fmod (Fin d) (threshholdDistance (Fin d)) = NaN /\
  modDistance (Fin d) = NaN.
Proof.
  intros _ H. rewrite (threshholdDistance_below d H).
  repeat split; [discriminate|].
  unfold modDistance. rewrite (threshholdDistance_below d H). reflexivity.
Qed.

Lemma band_threshold_below_first_is_zero_witness :
  threshholdDistance (Fin 5) = of_Z 0 /\
  threshholdDistance (Fin 5) <> of_Z 10 /\
  fmod (Fin 5) (threshholdDistance (Fin 5)) = NaN /\
  modDistance (Fin 5) = NaN.
Proof.
  apply (band_threshold_below_first_is_zero 5); [discriminate|reflexivity].
Defined.

(** C2 (defect in the code).  A valid fix at a distance inside the
    first band reaches the first entry only at [d = 10] itself, where
    the pin is driven to its powered-on level LOW, the interval set to
    0 and no timer started.  For [0 <= d < 10] the NaN residual
    selects no entry: the handler writes neither the pin nor the
    interval (a pin at HIGH stays HIGH) and starts no timer. *)
Theorem fix_inside_first_band (cd : fp -> fp -> fp -> fp -> fp)
        (tc : bool) (g : gps_t) (s : state) (d : Q) :
  fix_ g <> 0%Z ->
  distanceToSpawn cd (context (recordFix g (countUpdate s))) = Fin d ->
  0 <= d -> d <= 10 ->
  (d < 10 ->
   selected (Fin d) = None /\
   gps_event_handler cd tc (GPS_UPDATE g) s
   = Done (recordFix g (countUpdate s)) /\
   GPS_EN_PIN (recordFix g (countUpdate s)) = GPS_EN_PIN s /\
   gpsSleepInterval (recordFix g (countUpdate s)) = gpsSleepInterval s /\
   timers (recordFix g (countUpdate s)) = timers s) /\
  (d == 10 ->
   exists s',
     gps_event_handler cd tc (GPS_UPDATE g) s = Done s' /\
     GPS_EN_PIN s' = LOW /\ gpsSleepInterval s' = 0%Z /\
     timers s' = timers s).
Proof.
  intros Hfix Hd _ _. rewrite (handler_valid_fix cd tc g s Hfix), Hd.
  unfold sleepPolicy. split.
  - intros Hlt. rewrite (selected_below d Hlt). repeat split.
  - intros Heq. rewrite (selected_at_first d Heq).
    eexists. split; [reflexivity|]. repeat split.
Qed.

Lemma fix_inside_first_band_witness :
  let g := Examples.fixAt (1 # 20) in
  let s := Examples.gps0 in
  distanceToSpawn Examples.meridianDistance
                  (context (recordFix g (countUpdate s)))
  = Fin (111 # 20) /\
  selected (Fin (111 # 20)) = None /\
  gps_event_handler Examples.meridianDistance true (GPS_UPDATE g) s
  = Done (recordFix g (countUpdate s)).
Proof.
  intros g s.
  assert (Hd : distanceToSpawn Examples.meridianDistance
                 (context (recordFix g (countUpdate s)))
               = Fin (111 # 20)) by reflexivity.
  assert (H0 : 0 <= 111 # 20) by discriminate.
  assert (H10 : 111 # 20 <= 10) by discriminate.
  assert (Hf : fix_ g <> 0%Z) by discriminate.
  assert (Hlt : 111 # 20 < 10) by reflexivity.
  destruct (fix_inside_first_band Examples.meridianDistance true g s
              (111 # 20) Hf Hd H0 H10) as [Hbelow _].
  destruct (Hbelow Hlt) as (Hsel & Hrun & _).
  exact (conj Hd (conj Hsel Hrun)).
Defined.

(** C3 (defect in the code).  After a valid fix at a distance
    [0 <= d < 10] the selection has completed without writing
    [gpsSleepInterval]: it still holds what it held before, and when
    that is the initial 3600 seconds it is not an interval of the
    table. *)
Theorem interval_untouched_below_first_band
        (cd : fp -> fp -> fp -> fp -> fp)
        (tc : bool) (g : gps_t) (s : state) (d : Q) :
  fix_ g <> 0%Z ->
  distanceToSpawn cd (context (recordFix g (countUpdate s))) = Fin d ->
  0 <= d -> d < 10 ->
  exists s',
    gps_event_handler cd tc (GPS_UPDATE g) s = Done s' /\
    gpsSleepInterval s' = gpsSleepInterval s /\
    (gpsSleepInterval s = (60 * 60)%Z ->
     ~ In (gpsSleepInterval s') (map sleepInterval sleepConfigs)).
Proof.
  intros Hfix Hd _ Hlt. rewrite (handler_valid_fix cd tc g s Hfix), Hd.
  unfold sleepPolicy. rewrite (selected_below d Hlt).
  eexists. split; [reflexivity|]. split; [reflexivity|].
  cbn [recordFix countUpdate setContext gpsSleepInterval].
  intros ->. rewrite table_intervals. cbn. lia.
Qed.

Lemma interval_untouched_below_first_band_witness :
  exists s',
    gps_event_handler Examples.meridianDistance true
      (GPS_UPDATE (Examples.fixAt (1 # 20))) Examples.gps0
    = Done s' /\
    gpsSleepInterval s' = 3600%Z /\
    ~ In (gpsSleepInterval s') (map sleepInterval sleepConfigs).
Proof.
  destruct (interval_untouched_below_first_band
              Examples.meridianDistance true (Examples.fixAt (1 # 20))
              Examples.gps0 (111 # 20))
    as (s' & Hrun & Hkeep & Hout).
  - discriminate.
  - reflexivity.
  - discriminate.
  - reflexivity.
  - exists s'. split; [exact Hrun|]. split; [exact Hkeep|].
    apply Hout. reflexivity.
Defined.

(** C7, counterexample.  A fix at 70 km selects the 50 km entry and
    starts a 300-second sleep timer; a following fix at 10 km selects
    the power-enabled first entry, drives the pin LOW, and the sleep
    timer started before is still pending. *)
Lemma power_on_leaves_sleep_timer_pending :
  exists c s1 s2,
    sleepPolicy true (of_Z 70) Examples.gps0 = Done s1 /\
    timers s1 = timers Examples.gps0 ++ [mkTimer GpsWake 300000000] /\
    selected (of_Z 10) = Some c /\ gpsPowerEn c = true /\
    sleepPolicy true (of_Z 10) s1 = Done s2 /\
    GPS_EN_PIN s2 = LOW /\
    In (mkTimer GpsWake 300000000) (timers s2).
Proof.
  eexists. eexists. eexists.
  split; [vm_compute; reflexivity|].
  split; [reflexivity|].
  split; [vm_compute; reflexivity|].
  split; [reflexivity|].
  split; [vm_compute; reflexivity|].
  split; [reflexivity|]. cbn. right. left. reflexivity.
Qed.

(** C7, as the code has it.  On a valid fix for which the selection
    finds an entry: when the entry has power enabled the handler
    drives the pin LOW (receiver on) and leaves the pending timers as
    they are, nothing is cancelled; when it has power disabled the
    handler drives the pin HIGH (receiver off) and, the timer being
    created, starts one more one-shot timer of the entry's interval in
    microseconds.  When that timer expires the pin is driven LOW
    whatever the state, and neither the interval nor the context is
    touched. *)
Theorem fix_applies_power_directive
        (cd : fp -> fp -> fp -> fp -> fp)
        (g : gps_t) (s : state) (c : SleepConfig) :
  fix_ g <> 0%Z ->
  selected (distanceToSpawn cd (context (recordFix g (countUpdate s))))
  = Some c ->
  (gpsPowerEn c = true ->
   forall tc, exists s',
     gps_event_handler cd tc (GPS_UPDATE g) s = Done s' /\
     gpsSleepInterval s' = sleepInterval c /\
     GPS_EN_PIN s' = LOW /\
     timers s' = timers s) /\
  (gpsPowerEn c = false ->
   exists s',
     gps_event_handler cd true (GPS_UPDATE g) s = Done s' /\
     gpsSleepInterval s' = sleepInterval c /\
     GPS_EN_PIN s' = HIGH /\
     timers s'
     = timers s ++ [mkTimer GpsWake (sleepInterval c * 1000000)]) /\
  (forall us s1,
     GPS_EN_PIN (expire (mkTimer GpsWake us) s1) = LOW /\
     gpsSleepInterval (expire (mkTimer GpsWake us) s1)
     = gpsSleepInterval s1 /\
     context (expire (mkTimer GpsWake us) s1) = context s1 /\
     timers (expire (mkTimer GpsWake us) s1)
     = remove_first (mkTimer GpsWake us) (timers s1)).
Proof.
  intros Hfix Hsel. rewrite (handler_valid_fix cd _ g s Hfix).
  split; [|split].
  - intros Hon tc. rewrite (handler_valid_fix cd tc g s Hfix).
    unfold sleepPolicy. rewrite Hsel, (applyConfig_power_on _ _ _ Hon).
    eexists. split; [reflexivity|]. repeat split.
  - intros Hoff. unfold sleepPolicy.
    rewrite Hsel, (applyConfig_power_off _ _ Hoff).
    rewrite (table_interval_fits c (selected_In _ _ Hsel)).
    eexists. split; [reflexivity|]. repeat split.
  - intros us s1. repeat split.
Qed.

Lemma fix_applies_power_directive_witness :
  exists s',
    gps_event_handler Examples.meridianDistance true
      (GPS_UPDATE (Examples.fixAt (70 # 111))) Examples.gps0
    = Done s' /\
    gpsSleepInterval s' = 300%Z /\
    GPS_EN_PIN s' = HIGH /\
    timers s' = timers Examples.gps0 ++ [mkTimer GpsWake 300000000].
Proof.
  assert (Hf : fix_ (Examples.fixAt (70 # 111)) <> 0%Z) by discriminate.
  assert (Hsel : selected
                   (distanceToSpawn Examples.meridianDistance
                      (context (recordFix (Examples.fixAt (70 # 111))
                                  (countUpdate Examples.gps0))))
                 = Some (mkSleepConfig (of_Z 50) (5 * 60) false))
    by (vm_compute; reflexivity).
  destruct (fix_applies_power_directive Examples.meridianDistance
              (Examples.fixAt (70 # 111)) Examples.gps0
              _ Hf Hsel) as (_ & Hoff & _).
  exact (Hoff eq_refl).
Defined.

(** C6, counterexample.  The all-zero location passes the validity
    predicate. *)
Lemma all_zero_location_is_valid :
  isValidGPSLocation (mkLocation (of_Z 0) (of_Z 0)) = true /\
  isValidGPSLocation (mkLocation (of_Z 0) (of_Z 0)) <> false.
Proof. split; [reflexivity|discriminate]. Qed.

(** C6, as the code has it.  [gps::isValidGPSLocation] returns true
    exactly for the locations whose latitude is a number in
    [[-90, 90]] and whose longitude is a number in [[-180, 180]]; the
    all-zero location is one of them and is treated as valid. *)
Theorem isValidGPSLocation_iff_in_range (location : Location) :
  (isValidGPSLocation location = true <->
   between (-90) 90 (latitude location) /\
   between (-180) 180 (longitude location)) /\
  isValidGPSLocation Examples.origin = true.
Proof.
  split; [|reflexivity].
  destruct location as [lat lon]. unfold isValidGPSLocation, between.
  cbn [latitude longitude]. split.
  - intros H.
    destruct (fge lat (of_Z (-90))) eqn:E1; [|discriminate].
    destruct (fle lat (of_Z 90)) eqn:E2; [|discriminate].
    destruct (fge lon (of_Z (-180))) eqn:E3; [|discriminate].
    destruct (fle lon (of_Z 180)) eqn:E4; [|discriminate].
    destruct lat as [| | |a]; try discriminate.
    destruct lon as [| | |b]; try discriminate.
    apply fge_Fin in E1, E3. apply fle_Fin in E2, E4.
    split; eexists; (split; [reflexivity|split; assumption]).
  - intros [(a & -> & Ha1 & Ha2) (b & -> & Hb1 & Hb2)].
    unfold of_Z.
    rewrite !fge_Fin_true, !fle_Fin_true by assumption. reflexivity.
Qed.

End GpsClaims.

(** ** The BLE session and the configuration writes *)

Section BleFacts.

Import Ble.

Variable stof : string -> stof_result.

(** A colour write changes the colour in the context and in the store
    only. *)
Lemma onWrite_color_radio (value : string) (s : state) :
  radio (onWrite_color value s) = radio s.
Proof.
  unfold onWrite_color.
  destruct (split value ","%char) as [|c0 [|c1 rest]]; [reflexivity| |].
  - destruct (strtol16 c0) as [v n]. reflexivity.
  - destruct (strtol16 c0) as [v0 n0], (strtol16 c1) as [v1 n1].
    reflexivity.
Qed.

Lemma onWrite_spawn_radio (value : string) (s : state) :
  radio (onWrite_spawn stof value s) = radio s.
Proof.
  unfold onWrite_spawn.
  destruct (find _ value); [|reflexivity].
  destruct (stof _); try reflexivity.
  destruct (stof _); reflexivity.
Qed.

Lemma onWrite_radio (chr : characteristic) (value : string) (s : state) :
  radio (onWrite stof chr value s) = radio s.
Proof.
  destruct chr; [apply onWrite_spawn_radio|apply onWrite_color_radio].
Qed.

Lemma radio_fields (s s' : state) :
  radio s' = radio s ->
  clientConnected s' = clientConnected s /\
  serverEnable s' = serverEnable s /\
  last_update s' = last_update s /\
  connectedCount s' = connectedCount s /\
  advertising s' = advertising s /\
  hostStack s' = hostStack s /\
  controller s' = controller s /\
  dispatcherRegistered s' = dispatcherRegistered s /\
  timers s' = timers s /\
  notifications s' = notifications s.
Proof. unfold radio. intros [= -> -> -> -> -> -> -> -> -> ->]. repeat split. Qed.

(** Inside the window the dispatcher returns at once. *)
Lemma dispatcher_drops (now now' : Z) (evt : Body) (az : Z) (s : state) :
  u32 (now - last_update s) < 1000 ->
  ble_azimuth_dispatcher now now' evt az s = s.
Proof.
  intros H. unfold ble_azimuth_dispatcher.
  destruct (Z.ltb_spec (u32 (now - last_update s)) 1000); [reflexivity|lia].
Qed.

(** Outside the window it refreshes the stamp whatever the event is,
    and notifies for an azimuth event when a peer is connected. *)
Lemma dispatcher_accepts (now now' : Z) (evt : Body) (az : Z) (s : state) :
  1000 <= u32 (now - last_update s) ->
  ble_azimuth_dispatcher now now' evt az s
  = match type evt with
    | AZIMUTH =>
        if (0 <? connectedCount s)%nat && hostStack s
        then notify az (setLastUpdate now' s)
        else setLastUpdate now' s
    | _ => setLastUpdate now' s
    end.
Proof.
  intros H. unfold ble_azimuth_dispatcher.
  destruct (Z.ltb_spec (u32 (now - last_update s)) 1000); [lia|].
  destruct (type evt); try reflexivity.
  cbn [connectedCount hostStack setLastUpdate].
  destruct (0 <? connectedCount s)%nat, (hostStack s); reflexivity.
Qed.

(** The 32-bit difference of two clock readings is the time between
    them, as long as that is less than [2^32] ms. *)
Lemma millis_difference (t0 t : Z) :
  0 <= t - t0 < 2 ^ 32 -> u32 (millis t - millis t0) = t - t0.
Proof.
  intros H. unfold millis, u32.
  rewrite <- Zminus_mod. apply Z.mod_small. exact H.
Qed.

(** Only the dispatcher writes the stamp and sends notifications. *)
Lemma step_keeps_stamp (i : input) (s : state) :
  (forall d, i <> Bus d) ->
  last_update (step stof i s) = last_update s /\
  notifications (step stof i s) = notifications s.
Proof.
  intros Hi. destruct i as [| |chr value|d|c|]; cbn [step].
  - split; reflexivity.
  - split; reflexivity.
  - destruct (radio_fields _ _ (onWrite_radio chr value s))
      as (_ & _ & H1 & _ & _ & _ & _ & _ & _ & H2). split; assumption.
  - elim (Hi d). reflexivity.
  - split; reflexivity.
  - unfold deinitTimer_callback, deinit, dropIdleTimer.
    cbn [connectedCount context serverEnable clientConnected].
    destruct (connectedCount s); [|split; reflexivity].
    destruct (isGPSModel (context s) && _); [split; reflexivity|].
    destruct (negb (serverEnable s) || clientConnected s);
      split; reflexivity.
Qed.

(** A delivery inside the window opened at [t0] changes nothing. *)
Lemma step_bus_in_window (t0 : Z) (d : delivery) (s : state) :
  last_update s = millis t0 ->
  t0 <= t_check d < t0 + 1000 ->
  step stof (Bus d) s = s.
Proof.
  intros Hs Ht. cbn [step]. destruct (dispatcherRegistered s); [|reflexivity].
  apply dispatcher_drops. rewrite Hs, millis_difference; lia.
Qed.

(** While every delivery falls inside the window opened at [t0], the
    stamp stays and nothing is notified. *)
Lemma run_in_window (t0 : Z) (ins : list input) (s : state) :
  last_update s = millis t0 ->
  Forall (inWindow t0) ins ->
  last_update (run stof ins s) = last_update s /\
  notifications (run stof ins s) = notifications s.
Proof.
  revert s. induction ins as [|i ins IH]; intros s Hs Hall; cbn [run].
  { split; reflexivity. }
  inversion Hall as [|? ? Hi Hrest]; subst.
  assert (Hstep : last_update (step stof i s) = last_update s /\
                  notifications (step stof i s) = notifications s).
  { destruct i as [| |chr value|d|c|];
      try (apply step_keeps_stamp; intros d'; discriminate).
    rewrite (step_bus_in_window t0 d s Hs Hi). split; reflexivity. }
  destruct Hstep as [H1 H2].
  destruct (IH (step stof i s)) as [H3 H4]; [congruence|assumption|].
  split; congruence.
Qed.

Lemma radio_session (s s' : state) :
  radio s' = radio s -> session s' = session s.
Proof.
  intros H. destruct (radio_fields _ _ H)
    as (H1 & H2 & _ & H4 & H5 & H6 & H7 & H8 & H9 & _).
  unfold session. congruence.
Qed.

(** The dispatcher leaves the session alone. *)
Lemma dispatcher_session (now now' : Z) (evt : Body) (az : Z) (s : state) :
  session (ble_azimuth_dispatcher now now' evt az s) = session s.
Proof.
  unfold ble_azimuth_dispatcher.
  destruct (u32 (now - last_update s) <? 1000); [reflexivity|].
  destruct (type evt); try reflexivity.
  cbn [connectedCount hostStack setLastUpdate].
  destruct (0 <? connectedCount s)%nat, (hostStack s); reflexivity.
Qed.

(** The dispatcher leaves the stamp as it is or sets it to its second
    clock reading. *)
Lemma dispatcher_stamp (now now' : Z) (evt : Body) (az : Z) (s : state) :
  ble_azimuth_dispatcher now now' evt az s = s \/
  last_update (ble_azimuth_dispatcher now now' evt az s) = now'.
Proof.
  unfold ble_azimuth_dispatcher.
  destruct (u32 (now - last_update s) <? 1000); [left; reflexivity|].
  right. destruct (type evt); try reflexivity.
  cbn [connectedCount hostStack setLastUpdate].
  destruct (0 <? connectedCount s)%nat, (hostStack s); reflexivity.
Qed.

Lemma run_app (ins1 ins2 : list input) (s : state) :
  run stof (ins1 ++ ins2) s = run stof ins2 (run stof ins1 s).
Proof.
  revert s. induction ins1 as [|i ins1 IH]; intros s; [reflexivity|].
  cbn [app run]. apply IH.
Qed.

Lemma admissible_app (ins : list input) (i : input) (s : state) :
  admissible stof (ins ++ [i]) s = true ->
  admissible stof ins s = true /\ enabled i (run stof ins s) = true.
Proof.
  revert s. induction ins as [|j ins IH]; intros s; cbn [app admissible run].
  - rewrite andb_true_r. intros H. split; [reflexivity|exact H].
  - intros H. apply andb_prop in H. destruct H as [Hj Hrest].
    destruct (IH _ Hrest) as [H1 H2]. rewrite Hj, H1. split; [reflexivity|exact H2].
Qed.

(** [clientConnected] is set by the first connect and never cleared. *)
Lemma step_clientConnected (i : input) (s : state) :
  clientConnected (step stof i s) = clientConnected s || isConnect i.
Proof.
  destruct i as [| |chr value|d|c|]; cbn [step isConnect];
    rewrite ?orb_false_r.
  - now rewrite orb_true_r.
  - reflexivity.
  - destruct (radio_fields _ _ (onWrite_radio chr value s)) as [H _].
    exact H.
  - destruct (dispatcherRegistered s); [|reflexivity].
    pose proof (dispatcher_session (millis (t_check d)) (millis (t_stamp d))
                                   (body d) (azimuth d) s) as H.
    unfold session in H. congruence.
  - reflexivity.
  - unfold deinitTimer_callback, deinit, dropIdleTimer.
    cbn [connectedCount context serverEnable clientConnected].
    destruct (connectedCount s); [|reflexivity].
    destruct (isGPSModel (context s) && _); [reflexivity|].
    destruct (negb (serverEnable s) || clientConnected s); reflexivity.
Qed.

Lemma run_clientConnected (ins : list input) (s : state) :
  clientConnected (run stof ins s)
  = clientConnected s || existsb isConnect ins.
Proof.
  revert s. induction ins as [|i ins IH]; intros s; cbn [run existsb].
  - now rewrite orb_false_r.
  - rewrite IH, step_clientConnected, orb_assoc. reflexivity.
Qed.

Lemma idleTimer_dropped (s : state) :
  idleTimerPending (dropIdleTimer s) = false.
Proof.
  unfold idleTimerPending, dropIdleTimer. cbn [timers].
  induction (timers s) as [|t l IH]; [reflexivity|].
  cbn [filter]. destruct (callback t) eqn:E; cbn [existsb]; rewrite ?E; exact IH.
Qed.

Lemma deinitTimer_callback_timers (s : state) :
  timers (deinitTimer_callback s) = timers s.
Proof.
  unfold deinitTimer_callback, deinit.
  destruct (connectedCount s); [|reflexivity].
  destruct (isGPSModel (context s) && _); [reflexivity|].
  destruct (negb (serverEnable s) || clientConnected s); reflexivity.
Qed.

Lemma step_sessionInvariant (i : input) (s : state) :
  sessionInvariant s -> sessionInvariant (step stof i s).
Proof.
  intros [Hup Hcnt]. unfold sessionInvariant.
  destruct i as [| |chr value|d|c|]; cbn [step].
  - split; [exact Hup|reflexivity].
  - split.
    + unfold idleTimerPending, running, onDisconnect in *.
      cbn [timers serverEnable advertising hostStack controller
           dispatcherRegistered] in *.
      intros H. specialize (Hup H).
      repeat (apply andb_prop in Hup; destruct Hup as [Hup ?]).
      rewrite Hup. cbn. repeat (apply andb_true_intro; split); assumption.
    + cbn [onDisconnect connectedCount clientConnected]. intros H.
      apply Hcnt. destruct (connectedCount s); [contradiction|discriminate].
  - destruct (radio_fields _ _ (onWrite_radio chr value s))
      as (H1 & H2 & _ & H4 & H5 & H6 & H7 & H8 & H9 & _).
    unfold idleTimerPending, running in *.
    rewrite H1, H2, H4, H5, H6, H7, H8, H9. split; assumption.
  - destruct (dispatcherRegistered s) eqn:E; [|split; assumption].
    pose proof (dispatcher_session (millis (t_check d)) (millis (t_stamp d))
                                   (body d) (azimuth d) s) as H.
    unfold session in H. injection H as H1 H2 H3 H4 H5 H6 H7 H8.
    unfold idleTimerPending, running in *.
    rewrite H1, H2, H3, H4, H5, H6, H7, H8. split; assumption.
  - split; assumption.
  - split.
    + unfold idleTimerPending at 1.
      rewrite deinitTimer_callback_timers.
      pose proof (idleTimer_dropped s) as H. unfold idleTimerPending in H.
      rewrite H. discriminate.
    + unfold deinitTimer_callback, deinit, dropIdleTimer.
      cbn [connectedCount context serverEnable clientConnected].
      destruct (connectedCount s) eqn:En.
      * destruct (isGPSModel (context s) && _);
          [cbn [connectedCount]; rewrite ?En; intros H; now elim H|].
        destruct (negb (serverEnable s) || clientConnected s);
          cbn [connectedCount]; rewrite ?En; intros H; now elim H.
      * cbn [connectedCount clientConnected]. intros _. apply Hcnt.
        discriminate.
Qed.

Lemma run_sessionInvariant (ins : list input) (s : state) :
  sessionInvariant s -> sessionInvariant (run stof ins s).
Proof.
  revert s. induction ins as [|i ins IH]; intros s H; [exact H|].
  cbn [run]. apply IH, step_sessionInvariant, H.
Qed.

Lemma init_sessionInvariant (T : Z) (c : Context) (p : Preferences) :
  sessionInvariant (init T (boot c p)).
Proof. split; [reflexivity|intros H; now elim H]. Qed.

(** The stamp is always the second clock reading of some delivery. *)
Lemma run_stamp_between (lo hi : Z) (mid : list input) (s : state) :
  Forall (stampedBetween lo hi) mid ->
  (exists L, last_update s = millis L /\ lo <= L <= hi) ->
  exists L, last_update (run stof mid s) = millis L /\ lo <= L <= hi.
Proof.
  revert s. induction mid as [|i mid IH]; intros s Hmid Hs; [exact Hs|].
  inversion Hmid as [|? ? Hi Hrest]; subst. cbn [run].
  apply (IH _ Hrest). destruct Hs as (L & HL & HLb).
  destruct i as [| |chr value|d|c|];
    try (exists L; split; [|exact HLb];
         rewrite <- HL; apply step_keeps_stamp; intros d'; discriminate).
  cbn [step]. destruct (dispatcherRegistered s); [|eauto].
  destruct (dispatcher_stamp (millis (t_check d)) (millis (t_stamp d))
                             (body d) (azimuth d) s) as [E|E].
  - rewrite E. eauto.
  - exists (t_stamp d). split; [exact E|exact Hi].
Qed.

End BleFacts.

(** ** Claims about the BLE side *)

Section BleClaims.

Import Ble.

(** The two-token branch: each token that converts replaces its
    field, a token that does not convert leaves its field, and the
    result goes to the store and to the context. *)
Lemma color_write_two_tokens (value c0 c1 : string) (rest : list string)
      (s : state) :
  split value ","%char = c0 :: c1 :: rest ->
  let south :=
    if (snd (strtol16 c0) =? 0)%nat then southColor (color (context s))
    else fst (strtol16 c0) in
  let spawn :=
    if (snd (strtol16 c1) =? 0)%nat then spawnColor (color (context s))
    else fst (strtol16 c1) in
  color (context (onWrite_color value s)) = mkPointerColor south spawn /\
  savedPointerColor (preferences (onWrite_color value s))
  = mkPointerColor south spawn.
Proof.
  intros Hsplit. unfold onWrite_color. rewrite Hsplit.
  destruct (strtol16 c0) as [v0 n0], (strtol16 c1) as [v1 n1].
  cbn [fst snd].
  destruct (n0 =? 0)%nat, (n1 =? 0)%nat;
    destruct (color (context s)) as [so sp]; split; reflexivity.
Qed.

(** A write of ["ab,cd"] sets south to 0xAB and spawn to 0xCD. *)
Lemma color_write_ab_cd (s : state) :
  color (context (onWrite_color "ab,cd" s)) = mkPointerColor 0xAB 0xCD /\
  savedPointerColor (preferences (onWrite_color "ab,cd" s))
  = mkPointerColor 0xAB 0xCD.
Proof. exact (color_write_two_tokens "ab,cd" "ab" "cd" [] s eq_refl). Qed.

(** An unparseable token leaves its own field and not the other. *)
Lemma color_write_bad_token (s : state) :
  color (context (onWrite_color "zz,cd" s))
  = mkPointerColor (southColor (color (context s))) 0xCD /\
  color (context (onWrite_color "ab,zz" s))
  = mkPointerColor 0xAB (spawnColor (color (context s))).
Proof.
  split.
  - exact (proj1 (color_write_two_tokens "zz,cd" "zz" "cd" [] s eq_refl)).
  - exact (proj1 (color_write_two_tokens "ab,zz" "ab" "zz" [] s eq_refl)).
Qed.

(** The one-token branch takes the value only when [strtol] stopped
    after exactly one character, and writes the store only. *)
Lemma color_write_one_token (value c0 : string) (s : state) :
  split value ","%char = [c0] ->
  context (onWrite_color value s) = context s /\
  savedPointerColor (preferences (onWrite_color value s))
  = if (snd (strtol16 c0) =? 1)%nat
    then mkPointerColor (fst (strtol16 c0))
                        (spawnColor (color (context s)))
    else color (context s).
Proof.
  intros Hsplit. unfold onWrite_color. rewrite Hsplit.
  destruct (strtol16 c0) as [v n]. cbn [fst snd].
  destruct (n =? 1)%nat; split; reflexivity.
Qed.

(** C5 (defect in the code).  A colour write of ["ab"] converts to
    0xAB with two characters consumed, which the one-token branch
    does not accept: whatever the prior colours, the south colour in
    the context stays as it was, and the store receives the prior
    colours again, south included. *)
Theorem single_token_color_write_keeps_south (s : state) :
  split "ab" ","%char = ["ab"%string] /\
  strtol16 "ab" = (0xAB, 2%nat) /\
  color (context (onWrite_color "ab" s)) = color (context s) /\
  savedPointerColor (preferences (onWrite_color "ab" s))
  = color (context s).
Proof.
  split; [reflexivity|]. split; [reflexivity|].
  destruct (color_write_one_token "ab" "ab" s eq_refl) as [Hc Hp].
  rewrite Hc. split; [reflexivity|exact Hp].
Qed.

(** C8.  A spawn write whose payload has a comma and whose two tokens
    [std::stof] converts stores the location (first token as
    latitude, second as longitude) in the store and in the context,
    and changes nothing else; a payload without a comma, or with a
    token that makes [std::stof] throw, leaves the whole state as it
    was.  So ["12.345,67.890"] yields the floats of 12.345 and 67.890,
    and ["not,a,number"] changes nothing. *)
Theorem spawn_write_all_or_nothing (stof : string -> stof_result)
        (s : state) :
  (forall value i lat lon,
      find ","%char value = Some i ->
      stof (substr value 0 i) = Parsed lat ->
      stof (substr_from value (i + 1)) = Parsed lon ->
      spawnLocation (context (onWrite_spawn stof value s))
      = mkLocation lat lon /\
      savedSpawnLocation (preferences (onWrite_spawn stof value s))
      = mkLocation lat lon /\
      onWrite_spawn stof value s
      = setContext (setSpawnLocation (mkLocation lat lon) (context s))
                   (saveSpawnLocation (mkLocation lat lon) s)) /\
  (forall value,
      find ","%char value = None -> onWrite_spawn stof value s = s) /\
  (forall value i,
      find ","%char value = Some i ->
      (forall v, stof (substr value 0 i) <> Parsed v) \/
      (forall v, stof (substr_from value (i + 1)) <> Parsed v) ->
      onWrite_spawn stof value s = s) /\
  (forall lat lon,
      stof "12.345"%string = Parsed lat ->
      stof "67.890"%string = Parsed lon ->
      spawnLocation (context (onWrite_spawn stof "12.345,67.890" s))
      = mkLocation lat lon /\
      savedSpawnLocation
        (preferences (onWrite_spawn stof "12.345,67.890" s))
      = mkLocation lat lon) /\
  ((forall v, stof "a,number"%string <> Parsed v) ->
   onWrite_spawn stof "not,a,number" s = s).
Proof.
  assert (Hok : forall value i lat lon,
             find ","%char value = Some i ->
             stof (substr value 0 i) = Parsed lat ->
             stof (substr_from value (i + 1)) = Parsed lon ->
             onWrite_spawn stof value s
             = setContext
                 (setSpawnLocation (mkLocation lat lon) (context s))
                 (saveSpawnLocation (mkLocation lat lon) s)).
  { intros value i lat lon Hi Hlat Hlon. unfold onWrite_spawn.
    rewrite Hi, Hlon, Hlat. reflexivity. }
  assert (Hbad : forall value i,
             find ","%char value = Some i ->
             (forall v, stof (substr value 0 i) <> Parsed v) \/
             (forall v, stof (substr_from value (i + 1)) <> Parsed v) ->
             onWrite_spawn stof value s = s).
  { intros value i Hi Hthrow. unfold onWrite_spawn. rewrite Hi.
    destruct (stof (substr_from value (i + 1))) as [lon| |] eqn:Elon;
      try reflexivity.
    destruct (stof (substr value 0 i)) as [lat| |] eqn:Elat;
      try reflexivity.
    destruct Hthrow as [H|H]; [elim (H lat)|elim (H lon)]; reflexivity. }
  split; [|split; [|split; [|split]]].
  - intros value i lat lon Hi Hlat Hlon.
    rewrite (Hok value i lat lon Hi Hlat Hlon). repeat split.
  - intros value Hnone. unfold onWrite_spawn. rewrite Hnone. reflexivity.
  - exact Hbad.
  - intros lat lon Hlat Hlon.
    rewrite (Hok "12.345,67.890"%string 6%nat lat lon eq_refl Hlat Hlon).
    split; reflexivity.
  - intros Hthrow. apply (Hbad "not,a,number"%string 3%nat eq_refl).
    right. exact Hthrow.
Qed.

Lemma spawn_write_all_or_nothing_witness :
  spawnLocation
    (context (onWrite_spawn Examples.stofTable "12.345,67.890"
                            Examples.server0))
  = mkLocation (double_to_float (Fin (12345 # 1000)))
               (double_to_float (Fin (67890 # 1000))) /\
  savedSpawnLocation
    (preferences (onWrite_spawn Examples.stofTable "12.345,67.890"
                                Examples.server0))
  = mkLocation (double_to_float (Fin (12345 # 1000)))
               (double_to_float (Fin (67890 # 1000))) /\
  onWrite_spawn Examples.stofTable "not,a,number" Examples.server0
  = Examples.server0.
Proof.
  destruct (spawn_write_all_or_nothing Examples.stofTable Examples.server0)
    as (_ & _ & _ & Hex & Hnot).
  destruct (Hex (double_to_float (Fin (12345 # 1000)))
                (double_to_float (Fin (67890 # 1000))))
    as [Hc Hp]; [reflexivity|reflexivity|].
  split; [exact Hc|]. split; [exact Hp|].
  apply Hnot. intros v. discriminate.
Defined.

(** C4, counterexample.  A peer connects and disconnects before the
    timeout; when the idle timer fires no peer is connected and the
    model does not require GPS, yet nothing is torn down. *)
Lemma disconnected_peer_blocks_teardown :
  let ins := [Connect; Disconnect] in
  let s := run Examples.stofTable ins Examples.server0 in
  admissible Examples.stofTable (ins ++ [IdleTimer]) Examples.server0
  = true /\
  connectedCount s = O /\
  isGPSModel (context s) = false /\
  running (step Examples.stofTable IdleTimer s) = true /\
  tornDown (step Examples.stofTable IdleTimer s) = false.
Proof. repeat split. Qed.

(** C4, as the code has it.  When the idle timer fires with no peer
    connected, after any admissible run since [init]: if the model
    requires GPS and the spawn location is not valid, teardown is
    skipped; otherwise advertising, host stack, controller and
    dispatcher are torn down provided no peer has connected since
    boot; once a peer has connected, also one that has disconnected
    since, [deinit] returns at once and everything stays up. *)
Theorem idle_timeout_teardown (stof : string -> stof_result) (T : Z)
        (c : Context) (p : Preferences) (ins : list input) :
  admissible stof (ins ++ [IdleTimer]) (init T (boot c p)) = true ->
  connectedCount (run stof ins (init T (boot c p))) = O ->
  let s := run stof ins (init T (boot c p)) in
  let s' := step stof IdleTimer s in
  let skip := isGPSModel (context s) &&
              negb (Gps.isValidGPSLocation (spawnLocation (context s))) in
  (skip = true -> running s' = true) /\
  (skip = false -> existsb isConnect ins = false -> tornDown s' = true) /\
  (existsb isConnect ins = true -> running s' = true).
Proof.
  intros Hadm Hcount s s' skip.
  change (connectedCount s = O) in Hcount.
  destruct (admissible_app stof _ _ _ Hadm) as [_ Hpending].
  cbn [enabled] in Hpending. fold s in Hpending.
  destruct (run_sessionInvariant stof ins _ (init_sessionInvariant T c p))
    as [Hup _]. fold s in Hup. specialize (Hup Hpending).
  assert (Hcc : clientConnected s = existsb isConnect ins).
  { unfold s. rewrite run_clientConnected. reflexivity. }
  assert (Hrun : running (dropIdleTimer s) = true) by exact Hup.
  assert (Hs' : s' = if skip then dropIdleTimer s
                     else deinit (dropIdleTimer s)).
  { unfold s'. cbn [step]. unfold deinitTimer_callback.
    cbn [dropIdleTimer connectedCount context]. fold s. rewrite Hcount.
    reflexivity. }
  assert (Hen : serverEnable s = true).
  { unfold running in Hup.
    repeat (apply andb_prop in Hup; destruct Hup as [Hup _]). exact Hup. }
  rewrite Hs'. split; [|split].
  - intros ->. exact Hrun.
  - intros -> Hnone. unfold deinit.
    cbn [dropIdleTimer serverEnable clientConnected].
    rewrite Hen, Hcc, Hnone. reflexivity.
  - intros Hsome. destruct skip; [exact Hrun|].
    unfold deinit. cbn [dropIdleTimer serverEnable clientConnected].
    rewrite Hen, Hcc, Hsome. exact Hrun.
Qed.

Lemma idle_timeout_teardown_witness :
  tornDown (step Examples.stofTable IdleTimer
              (run Examples.stofTable
                   [Bus (mkDelivery 5000 5000
                                    (mkBody SENSOR_CALIBRATE BLE) 0)]
                   Examples.server0))
  = true.
Proof.
  destruct (idle_timeout_teardown Examples.stofTable 60
              Examples.context0 Examples.preferences0
              [Bus (mkDelivery 5000 5000 (mkBody SENSOR_CALIBRATE BLE) 0)])
    as (_ & Hdown & _).
  - reflexivity.
  - reflexivity.
  - apply Hdown; reflexivity.
Defined.

(** C9, counterexample.  With a peer connected, two azimuth events
    1500 ms apart produce one notification, not two, when the first of
    them falls in a window that is already open: the window of the
    initial stamp 0 (first event 500 ms after boot), or the window of
    an event accepted shortly before (events at 5000, 5900 and 7400 ms:
    the one at 5900 is dropped). *)
Lemma early_azimuth_event_is_dropped :
  let early := [Connect; Examples.azimuthAt 500 90;
                Examples.azimuthAt 2000 91] in
  let later := [Connect; Examples.azimuthAt 5000 80;
                Examples.azimuthAt 5900 90; Examples.azimuthAt 7400 91] in
  (2000 - 500 = 1500) /\
  admissible Examples.stofTable early Examples.server0 = true /\
  connectedCount (run Examples.stofTable early Examples.server0) = 1%nat /\
  notifications (run Examples.stofTable early Examples.server0) = [91] /\
  (7400 - 5900 = 1500) /\
  admissible Examples.stofTable later Examples.server0 = true /\
  connectedCount (run Examples.stofTable later Examples.server0) = 1%nat /\
  notifications (run Examples.stofTable later Examples.server0) = [80; 91].
Proof. repeat split. Qed.

(** C9, as the code has it.  Of two deliveries dispatched less than
    1000 ms apart, whatever happens in between, one is dropped: it
    leaves the state as it was, so it sends nothing and nothing of it
    is kept for later.  A delivery inside the window of the current
    stamp is dropped whatever follows it.  Two azimuth events
    dispatched one after the other, with a peer connected, both
    notify when the first is outside the window of the current stamp
    and the second comes at least 1000 ms, and less than [2^32] ms,
    after the first refreshed the stamp. *)
Theorem azimuth_rate_limit (stof : string -> stof_result)
        (d1 d2 : delivery) (mid : list input) (s : state) :
  t_check d1 <= t_stamp d1 <= t_check d2 ->
  Forall (stampedBetween (t_check d1) (t_check d2)) mid ->
  let s1 := step stof (Bus d1) s in
  let s2 := run stof mid s1 in
  let s3 := step stof (Bus d2) s2 in
  (t_check d2 - t_check d1 < 1000 -> s1 = s \/ s3 = s2) /\
  (u32 (millis (t_check d1) - last_update s) < 1000 -> s1 = s) /\
  (type (body d1) = AZIMUTH -> type (body d2) = AZIMUTH ->
   mid = [] ->
   dispatcherRegistered s = true -> hostStack s = true ->
   (0 < connectedCount s)%nat ->
   1000 <= u32 (millis (t_check d1) - last_update s) ->
   1000 <= t_check d2 - t_stamp d1 < 2 ^ 32 ->
   notifications s3 = notifications s ++ [azimuth d1; azimuth d2]).
Proof.
  intros Hord Hmid s1 s2 s3. split; [|split].
  - intros Hnear.
    destruct (dispatcherRegistered s) eqn:Ereg;
      [|left; unfold s1; cbn [step]; rewrite Ereg; reflexivity].
    destruct (dispatcher_stamp (millis (t_check d1)) (millis (t_stamp d1))
                               (body d1) (azimuth d1) s) as [Hsame|Hstamp].
    { left. unfold s1. cbn [step]. rewrite Ereg. exact Hsame. }
    right.
    assert (Hs1 : exists L, last_update s1 = millis L /\
                            t_check d1 <= L <= t_check d2).
    { exists (t_stamp d1). split; [|lia].
      unfold s1. cbn [step]. rewrite Ereg. exact Hstamp. }
    destruct (run_stamp_between stof _ _ mid s1 Hmid Hs1)
      as (L & HL & HLb). fold s2 in HL.
    unfold s3. cbn [step]. destruct (dispatcherRegistered s2); [|reflexivity].
    apply dispatcher_drops. rewrite HL, millis_difference; lia.
  - intros Hin. unfold s1. cbn [step].
    destruct (dispatcherRegistered s); [|reflexivity].
    apply dispatcher_drops. exact Hin.
  - intros Ht1 Ht2 -> Hreg Hhost Hconn Hout Hgap.
    unfold s3, s2, s1. cbn [run step]. rewrite Hreg.
    rewrite (dispatcher_accepts _ _ _ _ s Hout), Ht1.
    apply Nat.ltb_lt in Hconn. rewrite Hconn, Hhost. cbn [andb].
    cbn [notify setLastUpdate dispatcherRegistered]. rewrite Hreg.
    rewrite dispatcher_accepts.
    + rewrite Ht2. cbn [connectedCount hostStack notify setLastUpdate].
      rewrite Hconn, Hhost. cbn [andb notify setLastUpdate notifications].
      rewrite <- app_assoc. reflexivity.
    + cbn [last_update notify setLastUpdate].
      rewrite millis_difference; lia.
Qed.

Lemma azimuth_rate_limit_witness :
  notifications
    (run Examples.stofTable
         [Examples.azimuthAt 5000 90; Examples.azimuthAt 6500 91]
         (onConnect Examples.server0))
  = [90; 91].
Proof.
  destruct (azimuth_rate_limit Examples.stofTable
              (mkDelivery 5000 5000 (mkBody AZIMUTH SENSOR) 90)
              (mkDelivery 6500 6500 (mkBody AZIMUTH SENSOR) 91)
              [] (onConnect Examples.server0))
    as (_ & _ & Hboth).
  - cbn. lia.
  - constructor.
  - apply Hboth; try reflexivity.
    + cbn. lia.
    + vm_compute. intros H. discriminate H.
    + cbn. lia.
Defined.

(** C10.  The dispatcher tests and refreshes the stamp before it
    looks at the event type: a delivery of any type that gets past
    the test sets the stamp to its second clock reading, and sends
    nothing unless it is an azimuth event; from then on, whatever
    else happens to the server, no delivery dispatched within
    1000 ms of that reading sends a notification. *)
Theorem accepted_event_opens_shared_window (stof : string -> stof_result)
        (d : delivery) (s : state) (ins : list input) :
  dispatcherRegistered s = true ->
  1000 <= u32 (millis (t_check d) - last_update s) ->
  Forall (inWindow (t_stamp d)) ins ->
  let s1 := step stof (Bus d) s in
  last_update s1 = millis (t_stamp d) /\
  (type (body d) <> AZIMUTH -> notifications s1 = notifications s) /\
  notifications (run stof ins s1) = notifications s1.
Proof.
  intros Hreg Hout Hwin s1.
  assert (Hs1 : last_update s1 = millis (t_stamp d)).
  { unfold s1. cbn [step]. rewrite Hreg, (dispatcher_accepts _ _ _ _ s Hout).
    destruct (type (body d)); try reflexivity.
    destruct (_ && _); reflexivity. }
  split; [exact Hs1|]. split.
  - intros Hty. unfold s1. cbn [step].
    rewrite Hreg, (dispatcher_accepts _ _ _ _ s Hout).
    destruct (type (body d)); [now elim Hty| |]; reflexivity.
  - exact (proj2 (run_in_window stof (t_stamp d) ins s1 Hs1 Hwin)).
Qed.

Lemma accepted_event_opens_shared_window_witness :
  let wipe := mkDelivery 5000 5000 (mkBody FACTORY_RESET BLE) 0 in
  let s1 := step Examples.stofTable (Bus wipe)
                 (onConnect Examples.server0) in
  last_update s1 = 5000 /\
  notifications
    (run Examples.stofTable
         [Examples.azimuthAt 5100 90; Examples.azimuthAt 5999 91] s1)
  = [].
Proof.
  intros wipe s1.
  destruct (accepted_event_opens_shared_window Examples.stofTable wipe
              (onConnect Examples.server0)
              [Examples.azimuthAt 5100 90; Examples.azimuthAt 5999 91])
    as (Hstamp & Hquiet & Hwin).
  - reflexivity.
  - vm_compute. intros H. discriminate H.
  - repeat constructor; cbn; lia.
  - split; [exact Hstamp|].
    fold s1 in Hwin. rewrite Hwin. apply Hquiet. discriminate.
Defined.

End BleClaims.

(* ================================================================== *)
(** * Further properties of the two files *)

(** ** More on the floating-point model *)

Section FpBounds.

Local Open Scope Q_scope.

Lemma Qround_even_ge (q : Q) (k : Z) :
  inject_Z k <= q -> (k <= Qround_even q)%Z.
Proof.
  intros H. unfold Qround_even.
  pose proof (Qfloor_resp_le _ _ H) as Hf. rewrite Qfloor_Z in Hf.
  destruct (_ ?= _); [destruct (Z.even _)| |]; lia.
Qed.

Lemma round_quantum_ge (q : Q) (e k : Z) :
  (e <= 0)%Z -> inject_Z k <= q ->
  inject_Z k <= inject_Z (Qround_even (q / pow2 e)) * pow2 e.
Proof.
  intros He Hk.
  pose proof (pow2_pos e) as Hp.
  assert (HP : inject_Z (2 ^ (- e)) * pow2 e == 1).
  { rewrite Zpower_Qpower by lia. change (inject_Z 2) with 2.
    unfold pow2. rewrite <- Qpower_plus by (intro; discriminate).
    replace (- e + e)%Z with 0%Z by lia. reflexivity. }
  set (P := (2 ^ (- e))%Z) in *. set (p := pow2 e) in *.
  assert (Hdiv : inject_Z (k * P) <= q / p).
  { apply Qle_shift_div_l; [exact Hp|].
    rewrite inject_Z_mult, <- Qmult_assoc, HP. lra. }
  apply Qround_even_ge in Hdiv.
  rewrite Zle_Qle, inject_Z_mult in Hdiv.
  assert (H : inject_Z k * inject_Z P * p
              <= inject_Z (Qround_even (q / p)) * p)
    by (apply Qmult_le_compat_r; lra).
  rewrite <- Qmult_assoc, HP in H. lra.
Qed.

(** Narrowing keeps a non-negative double below [2^24] between any two
    integers it lies between. *)
Lemma double_to_float_between (q : Q) (lo hi : Z) :
  (0 <= lo)%Z -> inject_Z lo <= q -> q <= inject_Z hi -> q < pow2 24 ->
  exists r, double_to_float (Fin q) = Fin r /\
            inject_Z lo <= r /\ r <= inject_Z hi.
Proof.
  intros Hlo0 Hlo Hhi H24.
  assert (H0 : 0 <= q).
  { assert (inject_Z 0 <= inject_Z lo) by (rewrite <- Zle_Qle; exact Hlo0).
    change (inject_Z 0) with 0 in *. lra. }
  destruct (double_to_float_le q hi H0 H24 Hhi) as (r & Hr & _ & Hrhi).
  exists r. split; [exact Hr|]. split; [|exact Hrhi].
  revert Hr. unfold double_to_float.
  destruct (Qeq_bool q 0) eqn:E.
  { apply Qeq_bool_iff in E. intros [= <-]. lra. }
  apply Qeq_bool_neq in E.
  assert (Hpos : 0 < q) by lra.
  rewrite (Qabs_nonneg_eq q H0).
  pose proof (Qlog2_floor_lt q 24 Hpos H24) as Hl.
  set (e := Z.max (Qlog2_floor q - 23) (-149)).
  assert (He : (e <= 0)%Z) by lia.
  pose proof (round_quantum_ge q e lo He Hlo) as Hge.
  destruct (Qle_bool (pow2 128) _); [destruct (Qle_bool 0 q); discriminate|].
  assert (Hs : Qle_bool 0 q = true) by (apply Qle_bool_iff; exact H0).
  rewrite Hs. intros [= <-]. exact Hge.
Qed.

Lemma Qfloor_unique (x : Q) (k : Z) :
  inject_Z k <= x -> x < inject_Z (k + 1) -> Qfloor x = k.
Proof.
  intros Hlo Hhi.
  pose proof (Qfloor_resp_le _ _ Hlo) as H1. rewrite Qfloor_Z in H1.
  pose proof (Qfloor_le x) as H2.
  assert (H3 : inject_Z (Qfloor x) < inject_Z (k + 1)) by lra.
  rewrite <- Zlt_Qlt in H3. lia.
Qed.

(** The remainder of a non-negative [a] that lies in the [k]-th
    multiple of a positive [b]. *)
Lemma fmod_Fin_in_multiple (a b : Q) (k : Z) :
  0 < b -> (0 <= k)%Z ->
  inject_Z k * b <= a -> a < inject_Z (k + 1) * b ->
  exists r, fmod (Fin a) (Fin b) = Fin r /\ r == a - inject_Z k * b.
Proof.
  intros Hb Hk Hlo Hhi. unfold fmod.
  destruct (Qeq_bool b 0) eqn:E.
  { apply Qeq_bool_iff in E. lra. }
  eexists. split; [reflexivity|].
  assert (Hf : Qfloor (a / b) = k).
  { apply Qfloor_unique.
    - apply Qle_shift_div_l; assumption.
    - apply Qlt_shift_div_r; assumption. }
  assert (Hq : 0 <= a / b).
  { apply Qle_shift_div_l; [exact Hb|].
    assert (0 <= inject_Z k)
      by (change 0 with (inject_Z 0); rewrite <- Zle_Qle; exact Hk).
    assert (0 <= inject_Z k * b) by (apply Qmult_le_0_compat; lra).
    lra. }
  unfold Qtrunc. apply Qle_bool_iff in Hq. rewrite Hq, Hf. reflexivity.
Qed.

End FpBounds.

(** ** The bands of the sleep policy *)

Section GpsBands.

Import Gps.
Local Open Scope Q_scope.

(** Which threshold the downward scan stops at. *)
Lemma threshholdDistance_band (d : Q) :
  (10 <= d -> d < 50 -> threshholdDistance (Fin d) = of_Z 10) /\
  (50 <= d -> d < 100 -> threshholdDistance (Fin d) = of_Z 50) /\
  (100 <= d -> d < 200 -> threshholdDistance (Fin d) = of_Z 100) /\
  (200 <= d -> threshholdDistance (Fin d) = of_Z 200).
Proof.
  unfold threshholdDistance, sleepConfigs, of_Z.
  cbn [rev app scanThreshold distanceThreshold].
  repeat split; intros;
    rewrite ?fge_Fin_false by (unfold inject_Z; lra);
    rewrite fge_Fin_true by (unfold inject_Z; lra); reflexivity.
Qed.

(** Which entry the upward scan stops at, for a finite residual. *)
Lemma firstWithin_Fin (m : Q) :
  (m <= 10 ->
   firstWithin (Fin m) sleepConfigs
   = Some (mkSleepConfig (of_Z 10) 0 true)) /\
  (10 < m -> m <= 50 ->
   firstWithin (Fin m) sleepConfigs
   = Some (mkSleepConfig (of_Z 50) (5 * 60) false)) /\
  (50 < m -> m <= 100 ->
   firstWithin (Fin m) sleepConfigs
   = Some (mkSleepConfig (of_Z 100) (10 * 60) false)) /\
  (100 < m -> m <= 200 ->
   firstWithin (Fin m) sleepConfigs
   = Some (mkSleepConfig (of_Z 200) (15 * 60) false)).
Proof.
  unfold sleepConfigs, of_Z. cbn [firstWithin distanceThreshold].
  repeat split; intros;
    rewrite ?fle_Fin_false by (unfold inject_Z; lra);
    rewrite fle_Fin_true by (unfold inject_Z; lra); reflexivity.
Qed.

(** The residual the second loop sees, between the integers the exact
    remainder lies between. *)
Lemma selected_by_residual (d : Q) (t k lo hi : Z) :
  threshholdDistance (Fin d) = of_Z t ->
  (0 < t)%Z -> (0 <= k)%Z -> (0 <= lo)%Z -> (hi <= 200)%Z ->
  inject_Z k * inject_Z t <= d -> d < inject_Z (k + 1) * inject_Z t ->
  inject_Z lo <= d - inject_Z k * inject_Z t ->
  d - inject_Z k * inject_Z t <= inject_Z hi ->
  exists m, selected (Fin d) = firstWithin (Fin m) sleepConfigs /\
            inject_Z lo <= m /\ m <= inject_Z hi.
Proof.
  intros Ht Htpos Hk Hlo Hhi Hd1 Hd2 Hr1 Hr2.
  assert (Htq : 0 < inject_Z t)
    by (change 0 with (inject_Z 0); rewrite <- Zlt_Qlt; exact Htpos).
  destruct (fmod_Fin_in_multiple d (inject_Z t) k Htq Hk Hd1 Hd2)
    as (r & Hr & Hreq).
  assert (H200 : inject_Z hi <= inject_Z 200)
    by (rewrite <- Zle_Qle; exact Hhi).
  assert (H24 : inject_Z 200 < pow2 24) by reflexivity.
  destruct (double_to_float_between r lo hi Hlo) as (m & Hm & Hm1 & Hm2).
  { rewrite Hreq. exact Hr1. }
  { rewrite Hreq. exact Hr2. }
  { rewrite Hreq. lra. }
  exists m. split; [|split; assumption].
  unfold selected, modDistance. rewrite Ht. unfold of_Z. rewrite Hr, Hm.
  reflexivity.
Qed.

(** The always-on zones: from 10 to 60 km, from 100 to 110 km, and
    within 10 km above every multiple of 200 km, the first entry is
    selected; the policy drives the pin LOW, sets the interval to 0 and
    starts no timer. *)
Theorem always_on_zones (tc : bool) (d : Q) (s : state) :
  (10 <= d /\ d <= 60) \/ (100 <= d /\ d <= 110) \/
  (exists k : Z, (1 <= k)%Z /\ inject_Z (200 * k) <= d /\
                 d <= inject_Z (200 * k + 10)) ->
  selected (Fin d) = Some (mkSleepConfig (of_Z 10) 0 true) /\
  sleepPolicy tc (Fin d) s
  = Done (digitalWrite LOW (setGpsSleepInterval 0 s)).
Proof.
  intros Hzone.
  assert (Hsel : selected (Fin d) = Some (mkSleepConfig (of_Z 10) 0 true)).
  { destruct (threshholdDistance_band d) as (T10 & T50 & T100 & T200).
    assert (Hfin : forall t k,
               threshholdDistance (Fin d) = of_Z t ->
               (0 < t)%Z -> (0 <= k)%Z ->
               inject_Z k * inject_Z t <= d ->
               d < inject_Z (k + 1) * inject_Z t ->
               d - inject_Z k * inject_Z t <= inject_Z 10 ->
               selected (Fin d) = Some (mkSleepConfig (of_Z 10) 0 true)).
    { intros t k Ht Htpos Hk H1 H2 H3.
      destruct (selected_by_residual d t k 0 10 Ht Htpos Hk)
        as (m & Hm & _ & Hm10); try assumption; try lia.
      { change (inject_Z 0) with 0. lra. }
      rewrite Hm. apply (proj1 (firstWithin_Fin m)).
      unfold inject_Z in Hm10. exact Hm10. }
    destruct Hzone as [[H1 H2]|[[H1 H2]|(k & Hk & H1 & H2)]].
    - destruct (Qlt_le_dec d 50) as [Hlt|Hge].
      + pose proof (Qfloor_le (d / 10)) as Hf1.
        pose proof (Qlt_floor (d / 10)) as Hf2.
        assert (Hd : d == (d / 10) * 10) by (field; discriminate).
        assert (Hk0 : (0 <= Qfloor (d / 10))%Z).
        { change 0%Z with (Qfloor 0). apply Qfloor_resp_le.
          apply Qle_shift_div_l; [reflexivity|lra]. }
        set (q := d / 10) in *. set (k := Qfloor q) in *.
        apply (Hfin 10%Z k (T10 H1 Hlt)); try lia;
          change (inject_Z 10) with 10;
          rewrite ?inject_Z_plus in *; change (inject_Z 1) with 1 in *;
          clearbody q; lra.
      + apply (Hfin 50%Z 1%Z (T50 Hge ltac:(lra))); try lia;
          unfold inject_Z; cbn; lra.
    - apply (Hfin 100%Z 1%Z (T100 H1 ltac:(lra))); try lia;
        unfold inject_Z; cbn; lra.
    - rewrite inject_Z_plus, inject_Z_mult in H2.
      rewrite inject_Z_mult in H1.
      assert (Hk1 : inject_Z 1 <= inject_Z k) by (rewrite <- Zle_Qle; lia).
      change (inject_Z 1) with 1 in Hk1.
      change (inject_Z 200) with 200 in *. change (inject_Z 10) with 10 in *.
      apply (Hfin 200%Z k (T200 ltac:(lra))); try lia;
        rewrite ?inject_Z_plus; change (inject_Z 200) with 200;
        change (inject_Z 1) with 1; change (inject_Z 10) with 10; lra. }
  split; [exact Hsel|].
  unfold sleepPolicy. rewrite Hsel. reflexivity.
Qed.

Lemma always_on_zones_witness :
  selected (Fin 205) = Some (mkSleepConfig (of_Z 10) 0 true) /\
  sleepPolicy true (Fin 205) Examples.gps0
  = Done (digitalWrite LOW (setGpsSleepInterval 0 Examples.gps0)).
Proof.
  apply (always_on_zones true 205 Examples.gps0).
  right. right. exists 1%Z. repeat split; discriminate.
Defined.

(** The sleeping bands: the distances, up to a margin of 1 km after
    each always-on zone, at which the 5-, 10- and 15-minute entries are
    selected.  The 50 km entry is reached from 61 km on, and just
    below 200 km the 100 km entry applies while at 200 km itself the
    receiver is always on again: the interval does not grow with the
    distance. *)
Theorem sleeping_bands (d : Q) :
  ((61 <= d /\ d < 100) \/ (111 <= d /\ d <= 150) \/
   (exists k : Z, (1 <= k)%Z /\ inject_Z (200 * k + 11) <= d /\
                  d <= inject_Z (200 * k + 50)) ->
   selected (Fin d) = Some (mkSleepConfig (of_Z 50) (5 * 60) false)) /\
  ((151 <= d /\ d < 200) \/
   (exists k : Z, (1 <= k)%Z /\ inject_Z (200 * k + 51) <= d /\
                  d <= inject_Z (200 * k + 100)) ->
   selected (Fin d) = Some (mkSleepConfig (of_Z 100) (10 * 60) false)) /\
  ((exists k : Z, (1 <= k)%Z /\ inject_Z (200 * k + 101) <= d /\
                  d < inject_Z (200 * k + 200)) ->
   selected (Fin d) = Some (mkSleepConfig (of_Z 200) (15 * 60) false)).
Proof.
  destruct (threshholdDistance_band d) as (T10 & T50 & T100 & T200).
  pose proof (selected_by_residual d) as Hfin.
  assert (Hk200 : forall k a : Z,
             inject_Z (200 * k + a) == 200 * inject_Z k + inject_Z a).
  { intros k a. rewrite inject_Z_plus, inject_Z_mult. reflexivity. }
  split; [|split].
  - intros [[H1 H2]|[[H1 H2]|(k & Hk & H1 & H2)]].
    + destruct (Hfin 50%Z 1%Z 11%Z 50%Z (T50 ltac:(lra) H2))
        as (m & Hm & Hm1 & Hm2); try lia;
        try (unfold inject_Z; cbn; lra).
      rewrite Hm. apply (proj1 (proj2 (firstWithin_Fin m)));
        unfold inject_Z in *; lra.
    + destruct (Hfin 100%Z 1%Z 11%Z 50%Z (T100 ltac:(lra) ltac:(lra)))
        as (m & Hm & Hm1 & Hm2); try lia;
        try (unfold inject_Z; cbn; lra).
      rewrite Hm. apply (proj1 (proj2 (firstWithin_Fin m)));
        unfold inject_Z in *; lra.
    + rewrite Hk200 in H1, H2.
      assert (Hk1 : 1 <= inject_Z k)
        by (change 1 with (inject_Z 1); rewrite <- Zle_Qle; lia).
      change (inject_Z 11) with 11 in H1. change (inject_Z 50) with 50 in H2.
      destruct (Hfin 200%Z k 11%Z 50%Z (T200 ltac:(lra)))
        as (m & Hm & Hm1 & Hm2); try lia;
        try (rewrite ?inject_Z_plus; change (inject_Z 200) with 200;
             change (inject_Z 1) with 1; change (inject_Z 11) with 11;
             change (inject_Z 50) with 50; lra).
      rewrite Hm. apply (proj1 (proj2 (firstWithin_Fin m)));
        unfold inject_Z in *; lra.
  - intros [[H1 H2]|(k & Hk & H1 & H2)].
    + destruct (Hfin 100%Z 1%Z 51%Z 100%Z (T100 ltac:(lra) H2))
        as (m & Hm & Hm1 & Hm2); try lia;
        try (unfold inject_Z; cbn; lra).
      rewrite Hm. apply (proj1 (proj2 (proj2 (firstWithin_Fin m))));
        unfold inject_Z in *; lra.
    + rewrite Hk200 in H1, H2.
      assert (Hk1 : 1 <= inject_Z k)
        by (change 1 with (inject_Z 1); rewrite <- Zle_Qle; lia).
      change (inject_Z 51) with 51 in H1.
      change (inject_Z 100) with 100 in H2.
      destruct (Hfin 200%Z k 51%Z 100%Z (T200 ltac:(lra)))
        as (m & Hm & Hm1 & Hm2); try lia;
        try (rewrite ?inject_Z_plus; change (inject_Z 200) with 200;
             change (inject_Z 1) with 1; change (inject_Z 51) with 51;
             change (inject_Z 100) with 100; lra).
      rewrite Hm. apply (proj1 (proj2 (proj2 (firstWithin_Fin m))));
        unfold inject_Z in *; lra.
  - intros (k & Hk & H1 & H2).
    rewrite Hk200 in H1, H2.
    assert (Hk1 : 1 <= inject_Z k)
      by (change 1 with (inject_Z 1); rewrite <- Zle_Qle; lia).
    change (inject_Z 101) with 101 in H1.
    change (inject_Z 200) with 200 in H2.
    destruct (Hfin 200%Z k 101%Z 200%Z (T200 ltac:(lra)))
      as (m & Hm & Hm1 & Hm2); try lia;
      try (rewrite ?inject_Z_plus; change (inject_Z 200) with 200;
           change (inject_Z 1) with 1; change (inject_Z 101) with 101; lra).
    rewrite Hm. apply (proj2 (proj2 (proj2 (firstWithin_Fin m))));
      unfold inject_Z in *; lra.
Qed.

Lemma sleeping_bands_witness :
  selected (Fin 199) = Some (mkSleepConfig (of_Z 100) (10 * 60) false) /\
  selected (Fin 301) = Some (mkSleepConfig (of_Z 200) (15 * 60) false).
Proof.
  destruct (sleeping_bands 199) as (_ & H600 & _).
  destruct (sleeping_bands 301) as (_ & _ & H900).
  split.
  - apply H600. left. split; [discriminate|reflexivity].
  - apply H900. exists 1%Z. repeat split; try discriminate; reflexivity.
Defined.

(** The long intervals need distance: up to 150 km the interval is 0 or
    300 s, and up to 300 km it is never the 900 s of the last entry. *)
Theorem long_intervals_need_distance (d : Q) (c : SleepConfig) :
  10 <= d -> selected (Fin d) = Some c ->
  (d <= 150 -> sleepInterval c = 0%Z \/ sleepInterval c = 300%Z) /\
  (d <= 300 -> sleepInterval c <> 900%Z).
Proof.
  intros H10 Hsel.
  destruct (threshholdDistance_band d) as (T10 & T50 & T100 & T200).
  assert (Hfw : forall m bound,
             selected (Fin d) = firstWithin (Fin m) sleepConfigs ->
             m <= inject_Z bound ->
             ((bound <= 50)%Z ->
              sleepInterval c = 0%Z \/ sleepInterval c = 300%Z) /\
             ((bound <= 100)%Z -> sleepInterval c <> 900%Z)).
  { intros m bound Hm Hb. rewrite Hsel in Hm.
    destruct (firstWithin_Fin m) as (F0 & F1 & F2 & F3).
    split; intros Hbound.
    - assert (m <= 50).
      { assert (inject_Z bound <= inject_Z 50) by (rewrite <- Zle_Qle; lia).
        unfold inject_Z in *; lra. }
      destruct (Qlt_le_dec 10 m) as [Hgt|Hle].
      + rewrite F1 in Hm by assumption. injection Hm as ->. right. reflexivity.
      + rewrite F0 in Hm by assumption. injection Hm as ->. left. reflexivity.
    - assert (m <= 100).
      { assert (inject_Z bound <= inject_Z 100) by (rewrite <- Zle_Qle; lia).
        unfold inject_Z in *; lra. }
      destruct (Qlt_le_dec 10 m) as [Hgt|Hle];
        [destruct (Qlt_le_dec 50 m) as [Hgt'|Hle']|].
      + rewrite F2 in Hm by assumption. injection Hm as ->. discriminate.
      + rewrite F1 in Hm by assumption. injection Hm as ->. discriminate.
      + rewrite F0 in Hm by assumption. injection Hm as ->. discriminate. }
  (* the residual stays below the band threshold *)
  assert (Hbelow : forall t,
             threshholdDistance (Fin d) = of_Z t -> (0 < t <= 200)%Z ->
             exists m, selected (Fin d) = firstWithin (Fin m) sleepConfigs /\
                       m <= inject_Z t).
  { intros t Ht Htr.
    destruct (fmod_Fin_bounds d (inject_Z t)) as (r & Hr & Hr0 & Hrt);
      [lra|change 0 with (inject_Z 0); rewrite <- Zlt_Qlt; lia|].
    destruct (double_to_float_le r t Hr0) as (m & Hm & _ & Hmt); [|lra|].
    { assert (inject_Z t <= inject_Z 200) by (rewrite <- Zle_Qle; lia).
      assert (inject_Z 200 < pow2 24) by reflexivity. lra. }
    exists m. split; [|exact Hmt].
    unfold selected, modDistance. rewrite Ht. unfold of_Z.
    rewrite Hr, Hm. reflexivity. }
  assert (Hexact : forall t hi,
             threshholdDistance (Fin d) = of_Z t -> (0 < t)%Z ->
             (0 <= hi <= 200)%Z ->
             inject_Z t <= d -> d < inject_Z 2 * inject_Z t ->
             d - inject_Z t <= inject_Z hi ->
             exists m, selected (Fin d) = firstWithin (Fin m) sleepConfigs /\
                       m <= inject_Z hi).
  { intros t hi Ht Htpos Hhi H1 H2 H3.
    destruct (selected_by_residual d t 1 0 hi Ht Htpos)
      as (m & Hm & _ & Hmhi); try lia;
      try (change (inject_Z (1 + 1)) with (inject_Z 2);
           change (inject_Z 1) with 1; change (inject_Z 0) with 0; lra).
    exists m. split; assumption. }
  split.
  - intros H150.
    destruct (Qlt_le_dec d 50) as [L50|G50];
      [|destruct (Qlt_le_dec d 100) as [L100|G100]].
    + destruct (Hbelow 10%Z (T10 H10 L50)) as (m & Hm & Hb); [lia|].
      apply (Hfw m 10%Z Hm Hb). lia.
    + destruct (Hbelow 50%Z (T50 G50 L100)) as (m & Hm & Hb); [lia|].
      apply (Hfw m 50%Z Hm Hb). lia.
    + destruct (Hexact 100%Z 50%Z (T100 G100 ltac:(lra))) as (m & Hm & Hb);
        try lia; try (unfold inject_Z; cbn; lra).
      apply (Hfw m 50%Z Hm Hb). lia.
  - intros H300.
    destruct (Qlt_le_dec d 50) as [L50|G50];
      [|destruct (Qlt_le_dec d 100) as [L100|G100];
        [|destruct (Qlt_le_dec d 200) as [L200|G200]]].
    + destruct (Hbelow 10%Z (T10 H10 L50)) as (m & Hm & Hb); [lia|].
      apply (Hfw m 10%Z Hm Hb). lia.
    + destruct (Hbelow 50%Z (T50 G50 L100)) as (m & Hm & Hb); [lia|].
      apply (Hfw m 50%Z Hm Hb). lia.
    + destruct (Hbelow 100%Z (T100 G100 L200)) as (m & Hm & Hb); [lia|].
      apply (Hfw m 100%Z Hm Hb). lia.
    + destruct (Hexact 200%Z 100%Z (T200 G200)) as (m & Hm & Hb);
        try lia; try (unfold inject_Z; cbn; lra).
      apply (Hfw m 100%Z Hm Hb). lia.
Qed.

Lemma long_intervals_need_distance_witness :
  sleepInterval (mkSleepConfig (of_Z 100) (10 * 60) false) <> 900%Z.
Proof.
  assert (H10 : 10 <= 260) by discriminate.
  assert (Hsel : selected (Fin 260)
                 = Some (mkSleepConfig (of_Z 100) (10 * 60) false))
    by (vm_compute; reflexivity).
  destruct (long_intervals_need_distance 260 _ H10 Hsel) as [_ H].
  apply H. discriminate.
Defined.

(** From the first threshold on, the selection always ends with a table
    interval in [gpsSleepInterval]. *)
Theorem interval_in_table_from_first_threshold (d : Q) (s : state) :
  10 <= d ->
  exists s', sleepPolicy true (Fin d) s = Done s' /\
             In (gpsSleepInterval s') [0; 300; 600; 900]%Z.
Proof.
  intros H. destruct (selected_from_first d H) as (c & Hc & Hin).
  unfold sleepPolicy. rewrite Hc. unfold applyConfig.
  rewrite <- table_intervals.
  destruct (gpsPowerEn c); eexists; (split; [reflexivity|]);
    cbn [gpsSleepInterval digitalWrite setGpsSleepInterval
         esp_timer_start_once]; apply in_map; exact Hin.
Qed.

Lemma interval_in_table_from_first_threshold_witness :
  exists s', sleepPolicy true (Fin 1234) Examples.gps0 = Done s' /\
             In (gpsSleepInterval s') [0; 300; 600; 900]%Z.
Proof.
  apply (interval_in_table_from_first_threshold 1234 Examples.gps0).
  discriminate.
Defined.

End GpsBands.

(** ** The GPS side over whole runs *)

Section GpsRuns.

Import Gps GpsRun.

Variable cd : fp -> fp -> fp -> fp -> fp.

(** What the sleep policy can do to the state. *)
Lemma sleepPolicy_effect (tc : bool) (x : fp) (s s' : state) :
  sleepPolicy tc x s = Done s' ->
  context s' = context s /\
  handlerRegistered s' = handlerRegistered s /\
  (s' = s \/
   (GPS_EN_PIN s' = LOW /\ timers s' = timers s) \/
   (GPS_EN_PIN s' = HIGH /\
    exists c, In c sleepConfigs /\
              timers s' = timers s ++ [mkTimer GpsWake
                                         (sleepInterval c * 1000000)])).
Proof.
  unfold sleepPolicy. destruct (selected x) as [c|] eqn:Hsel.
  - unfold applyConfig. destruct (gpsPowerEn c).
    + intros [= <-]. repeat split. right. left. split; reflexivity.
    + destruct tc; [|discriminate]. intros [= <-]. repeat split.
      right. right. split; [reflexivity|]. exists c.
      split; [exact (selected_In _ _ Hsel)|].
      cbn [timers esp_timer_start_once digitalWrite setGpsSleepInterval
           gpsSleepInterval].
      rewrite (table_interval_fits c (selected_In _ _ Hsel)). reflexivity.
  - intros [= <-]. repeat split. left. reflexivity.
Qed.

(** What the handler can do to the state. *)
Lemma handler_effect (tc : bool) (ev : nmea_event) (s s' : state) :
  gps_event_handler cd tc ev s = Done s' ->
  handlerRegistered s' = handlerRegistered s /\
  (detectGPS (context s) = true -> detectGPS (context s') = true) /\
  (isGPSFixed (context s) = true -> isGPSFixed (context s') = true) /\
  ((GPS_EN_PIN s' = GPS_EN_PIN s /\ timers s' = timers s) \/
   (GPS_EN_PIN s' = LOW /\ timers s' = timers s) \/
   (GPS_EN_PIN s' = HIGH /\
    exists c, In c sleepConfigs /\
              timers s' = timers s ++ [mkTimer GpsWake
                                         (sleepInterval c * 1000000)])).
Proof.
  destruct ev as [g|]; cbn [gps_event_handler].
  - destruct (fix_ g =? 0)%Z.
    + intros [= <-]. split; [reflexivity|].
      split; [intros _; reflexivity|]. split; [intros H; exact H|].
      left. split; reflexivity.
    + intros H. apply sleepPolicy_effect in H.
      destruct H as (Hc & Hr & Heff). rewrite Hc, Hr.
      split; [reflexivity|].
      split; [intros _; reflexivity|]. split; [intros _; reflexivity|].
      destruct Heff as [->|[[Hp Ht]|[Hp Ht]]].
      * left. split; reflexivity.
      * right. left. split; assumption.
      * right. right. split; assumption.
  - intros [= <-]. split; [reflexivity|].
    split; [trivial|]. split; [trivial|]. left. split; reflexivity.
Qed.

Lemma expire_effect (t : timer) (s : state) :
  context (expire t s) = context s /\
  timers (expire t s) = remove_first t (timers s) /\
  match callback t with
  | GpsWake =>
      GPS_EN_PIN (expire t s) = LOW /\
      handlerRegistered (expire t s) = handlerRegistered s
  | GpsDetectTimeout =>
      if detectGPS (context s)
      then GPS_EN_PIN (expire t s) = GPS_EN_PIN s /\
           handlerRegistered (expire t s) = handlerRegistered s
      else GPS_EN_PIN (expire t s) = HIGH /\
           handlerRegistered (expire t s) = false
  | BleIdleTimeout =>
      GPS_EN_PIN (expire t s) = GPS_EN_PIN s /\
      handlerRegistered (expire t s) = handlerRegistered s
  end.
Proof.
  unfold expire. destruct (callback t); cbn.
  - repeat split.
  - unfold gpsDisableTimer_callback. cbn [context].
    destruct (detectGPS (context s)); repeat split.
  - repeat split.
Qed.


(** Once an update has been seen, nothing on the GPS side unregisters
    the handler: the detect timeout finds [detectGPS] set and skips the
    shutdown.  In particular one update handled after [gps::init], with
    or without a fix, keeps the handler registered for good. *)
Theorem detected_receiver_stays_registered (ins : list input)
        (s s' : state) :
  detectGPS (context s) = true ->
  run cd ins s = Done s' ->
  handlerRegistered s' = handlerRegistered s.
Proof.
  revert s. induction ins as [|i ins IH]; intros s Hdet; cbn [run].
  { intros [= <-]. reflexivity. }
  destruct (deliver cd i s) as [s1|] eqn:Hd; [|discriminate].
  intros Hrun.
  assert (Hstep : detectGPS (context s1) = true /\
                  handlerRegistered s1 = handlerRegistered s).
  { destruct i as [ev tc|t]; cbn [deliver] in Hd.
    - destruct (handlerRegistered s) eqn:Hreg.
      + destruct (handler_effect _ _ _ _ Hd) as (Hr & Hdet' & _).
        split; [exact (Hdet' Hdet)|congruence].
      + injection Hd as <-. split; [exact Hdet|exact Hreg].
    - destruct (pending t s); injection Hd as <-; [|split; trivial].
      destruct (expire_effect t s) as (Hc & _ & Hcb). rewrite Hc.
      split; [exact Hdet|].
      destruct (callback t); [| rewrite Hdet in Hcb |]; apply Hcb. }
  destruct Hstep as [Hdet1 Hreg1]. rewrite (IH _ Hdet1 Hrun). exact Hreg1.
Qed.

(** When the detect timer of [gps::init] expires before any update has
    been seen, the receiver is powered off and the handler removed, no
    timer is left, and from then on no event and no expiry changes the
    state any more. *)
Theorem undetected_receiver_is_shut_down_for_good
        (T : Z) (pin : level) (c : Context) (s0 : state) :
  detectGPS c = false ->
  init T true (boot pin c) = Done s0 ->
  let off := expire (mkTimer GpsDetectTimeout (T * 1000000)) s0 in
  deliver cd (Expire (mkTimer GpsDetectTimeout (T * 1000000))) s0 = Done off /\
  GPS_EN_PIN off = HIGH /\ handlerRegistered off = false /\
  timers off = [] /\
  forall ins, run cd ins off = Done off.
Proof.
  intros Hdet [= <-] off.
  assert (Heqb : timer_eqb (mkTimer GpsDetectTimeout (T * 1000000))
                           (mkTimer GpsDetectTimeout (T * 1000000)) = true)
    by (unfold timer_eqb; cbn; apply Z.eqb_refl).
  assert (Hoff : off = mkState (60 * 60) 0 false HIGH [] c).
  { unfold off, expire. cbn -[Z.mul]. rewrite Z.eqb_refl.
    unfold gpsDisableTimer_callback. cbn -[Z.mul]. rewrite Hdet.
    reflexivity. }
  split.
  { cbn [deliver]. unfold pending. cbn -[Z.mul expire].
    rewrite Z.eqb_refl. reflexivity. }
  rewrite Hoff. repeat split.
  induction ins as [|i ins IH]; [reflexivity|].
  cbn [run]. destruct i as [ev tc|t]; cbn; exact IH.
Qed.

(** A receiver that the handler has powered off always has a wake timer
    pending: in every state reached from [gps::init], if the handler is
    still registered and the pin is HIGH, one of the pending timers is a
    sleep timer, whose expiry drives the pin LOW. *)
Theorem sleeping_receiver_has_wake_timer
        (T : Z) (pin : level) (c : Context) (s0 : state)
        (ins : list input) (s' : state) :
  init T true (boot pin c) = Done s0 ->
  run cd ins s0 = Done s' ->
  handlerRegistered s' = true -> GPS_EN_PIN s' = HIGH ->
  existsb isWake (timers s') = true.
Proof.
  intros Hinit Hrun.
  assert (Hinv0 : handlerRegistered s0 = true -> GPS_EN_PIN s0 = HIGH ->
                  existsb isWake (timers s0) = true).
  { injection Hinit as <-. cbn. intros _ H. discriminate H. }
  clear Hinit. revert s0 Hinv0 Hrun.
  induction ins as [|i ins IH]; intros s Hinv; cbn [run].
  { intros [= <-]. exact Hinv. }
  destruct (deliver cd i s) as [s1|] eqn:Hd; [|discriminate].
  apply IH. clear IH.
  destruct i as [ev tc|t]; cbn [deliver] in Hd.
  - destruct (handlerRegistered s) eqn:Hreg;
      [|injection Hd as <-; intros H; rewrite Hreg in H; discriminate H].
    destruct (handler_effect _ _ _ _ Hd)
      as (_ & _ & _ & [[Hp Ht]|[[Hp Ht]|[Hp (c0 & _ & Ht)]]]).
    + rewrite Hp, Ht. intros _. exact (Hinv eq_refl).
    + rewrite Hp. intros _ H. discriminate H.
    + intros _ _. rewrite Ht, existsb_app. cbn. apply orb_true_r.
  - destruct (pending t s); injection Hd as <-; [|exact Hinv].
    destruct (expire_effect t s) as (_ & Ht & Hcb).
    destruct (callback t) eqn:Ecb.
    + destruct Hcb as [Hp _]. rewrite Hp. intros _ H. discriminate H.
    + destruct (detectGPS (context s)); destruct Hcb as [Hp Hr].
      * rewrite Hp, Hr, Ht. intros H1 H2. specialize (Hinv H1 H2).
        clear - Hinv Ecb. induction (timers s) as [|x l IHl]; [discriminate|].
        cbn [remove_first existsb] in *.
        destruct (timer_eqb t x) eqn:Ex.
        -- assert (isWake x = false).
           { unfold timer_eqb in Ex. unfold isWake. rewrite Ecb in Ex.
             destruct (callback x); try discriminate; reflexivity. }
           rewrite H in Hinv. exact Hinv.
        -- cbn [existsb]. destruct (isWake x); [reflexivity|].
           apply IHl. exact Hinv.
      * rewrite Hr. discriminate.
    + destruct Hcb as [Hp Hr]. rewrite Hp, Hr, Ht. intros H1 H2.
      specialize (Hinv H1 H2).
      clear - Hinv Ecb. induction (timers s) as [|x l IHl]; [discriminate|].
      cbn [remove_first existsb] in *.
      destruct (timer_eqb t x) eqn:Ex.
      -- assert (isWake x = false).
         { unfold timer_eqb in Ex. unfold isWake. rewrite Ecb in Ex.
           destruct (callback x); try discriminate; reflexivity. }
         rewrite H in Hinv. exact Hinv.
      -- cbn [existsb]. destruct (isWake x); [reflexivity|].
         apply IHl. exact Hinv.
Qed.

End GpsRuns.

Section GpsRunsExamples.

Import Gps GpsRun.


Lemma detected_receiver_stays_registered_witness :
  exists s',
    run Examples.meridianDistance
        [Expire (mkTimer GpsDetectTimeout 60000000)]
        (countUpdate Examples.gps0) = Done s' /\
    handlerRegistered s' = true.
Proof.
  eexists. split; [vm_compute; reflexivity|].
  rewrite (detected_receiver_stays_registered Examples.meridianDistance
             [Expire (mkTimer GpsDetectTimeout 60000000)]
             (countUpdate Examples.gps0) _ eq_refl
             ltac:(vm_compute; reflexivity)).
  reflexivity.
Defined.

Lemma undetected_receiver_is_shut_down_for_good_witness :
  GPS_EN_PIN (expire (mkTimer GpsDetectTimeout (60 * 1000000)) Examples.gps0)
  = HIGH /\
  run Examples.meridianDistance
      [Nmea (GPS_UPDATE (Examples.fixAt (1 # 20))) true;
       Expire (mkTimer GpsWake 300000000)]
      (expire (mkTimer GpsDetectTimeout (60 * 1000000)) Examples.gps0)
  = Done (expire (mkTimer GpsDetectTimeout (60 * 1000000)) Examples.gps0).
Proof.
  destruct (undetected_receiver_is_shut_down_for_good
              Examples.meridianDistance 60 HIGH Examples.context0
              Examples.gps0 eq_refl eq_refl)
    as (_ & Hpin & _ & _ & Hfrozen).
  split; [exact Hpin|apply Hfrozen].
Defined.

Lemma sleeping_receiver_has_wake_timer_witness :
  exists s',
    run Examples.meridianDistance
        [Nmea (GPS_UPDATE (Examples.fixAt (70 # 111))) true;
         Expire (mkTimer GpsDetectTimeout 60000000)]
        Examples.gps0 = Done s' /\
    handlerRegistered s' = true /\ GPS_EN_PIN s' = HIGH /\
    existsb isWake (timers s') = true.
Proof.
  eexists. split; [vm_compute; reflexivity|].
  split; [reflexivity|]. split; [reflexivity|].
  apply (sleeping_receiver_has_wake_timer Examples.meridianDistance
           60 HIGH Examples.context0 Examples.gps0
           [Nmea (GPS_UPDATE (Examples.fixAt (70 # 111))) true;
            Expire (mkTimer GpsDetectTimeout 60000000)]);
    [reflexivity|vm_compute; reflexivity|reflexivity|reflexivity].
Defined.

End GpsRunsExamples.

(** ** The BLE session over whole runs *)

Section BleRuns.

Import Ble BleRun.

Variable stof : string -> stof_result.

(** [ble_server::deinit] is idempotent: a second call finds the server
    disabled and returns at once. *)
Theorem deinit_idempotent (s : state) : deinit (deinit s) = deinit s.
Proof.
  unfold deinit.
  destruct (serverEnable s) eqn:Hen, (clientConnected s) eqn:Hcc;
    cbn; rewrite ?Hen, ?Hcc; reflexivity.
Qed.

Lemma step_keeps_running (i : input) (s : state) :
  idleTimerPending s = false -> running s = true ->
  enabled i s = true ->
  idleTimerPending (step stof i s) = false /\ running (step stof i s) = true.
Proof.
  intros Hpend Hrun Hen.
  destruct i as [| |chr value|d|c|]; cbn [step].
  - split; assumption.
  - split; [exact Hpend|].
    unfold running, onDisconnect in *.
    cbn [serverEnable advertising hostStack controller dispatcherRegistered].
    repeat (apply andb_prop in Hrun; destruct Hrun as [Hrun ?]).
    rewrite Hrun. cbn. repeat (apply andb_true_intro; split); assumption.
  - destruct (radio_fields _ _ (onWrite_radio stof chr value s))
      as (H1 & H2 & _ & H4 & H5 & H6 & H7 & H8 & H9 & _).
    unfold idleTimerPending, running in *.
    rewrite H2, H5, H6, H7, H8, H9. split; assumption.
  - destruct (dispatcherRegistered s) eqn:E; [|split; assumption].
    pose proof (dispatcher_session (millis (t_check d)) (millis (t_stamp d))
                                   (body d) (azimuth d) s) as H.
    unfold session in H. injection H as H1 H2 H3 H4 H5 H6 H7 H8.
    unfold idleTimerPending, running in *.
    rewrite H2, H4, H5, H6, H7, H8. split; assumption.
  - split; assumption.
  - cbn [enabled] in Hen. rewrite Hpend in Hen. discriminate.
Qed.

(** The idle timer is started once, in [init], and never again: when
    its single expiry has left the server running (a peer was counted,
    a peer had connected before, or the GPS model had no valid spawn
    location), no later input tears the server down, whatever the
    context becomes. *)
Theorem no_teardown_after_idle_timer (s : state) (ins : list input) :
  running (step stof IdleTimer s) = true ->
  admissible stof ins (step stof IdleTimer s) = true ->
  running (run stof ins (step stof IdleTimer s)) = true /\
  tornDown (run stof ins (step stof IdleTimer s)) = false.
Proof.
  assert (Hpend : idleTimerPending (step stof IdleTimer s) = false).
  { cbn [step]. unfold idleTimerPending.
    rewrite deinitTimer_callback_timers. apply idleTimer_dropped. }
  revert Hpend. generalize (step stof IdleTimer s). clear s.
  induction ins as [|i ins IH]; intros s Hpend Hrun; cbn [admissible run].
  - intros _. split; [exact Hrun|].
    unfold running in Hrun. unfold tornDown.
    apply andb_prop in Hrun. destruct Hrun as [_ Hd]. rewrite Hd.
    rewrite !orb_true_r. reflexivity.
  - intros Hadm. apply andb_prop in Hadm. destruct Hadm as [Hen Hadm].
    destruct (step_keeps_running i s Hpend Hrun Hen) as [H1 H2].
    apply IH; assumption.
Qed.

Lemma timeOrdered_weaken (from from' upto : Z) (ins : list input) :
  from <= from' -> timeOrdered from' upto ins -> timeOrdered from upto ins.
Proof.
  intros Hle. induction ins as [|i ins IH]; [trivial|].
  destruct i as [| |chr value|d|c|]; cbn [timeOrdered]; try exact IH.
  intros (H1 & H2 & H3 & H4). repeat split; try assumption. lia.
Qed.

(** A delivery gets past the window test only 1000 ms or more after the
    clock reading held in the stamp, also across the wrap of the 32-bit
    clock. *)
Lemma accepted_is_late (L t : Z) :
  L <= t -> 1000 <= u32 (millis t - millis L) -> L + 1000 <= t.
Proof.
  intros Hle Hacc. unfold millis, u32 in Hacc.
  rewrite <- Zminus_mod in Hacc.
  destruct (Z_lt_le_dec (t - L) 1000) as [Hlt|Hge]; [|lia].
  rewrite Z.mod_small in Hacc by lia. lia.
Qed.

(** The rate limit as a bound: over any run whose deliveries come in
    the order of their clock readings, starting when the stamp holds
    the reading of time [L] and ending by [upto], at most one
    notification is sent for every full 1000 ms elapsed, whatever the
    number and the types of the events and whatever else happens to
    the server. *)
Theorem notification_rate_bound (L upto : Z) (ins : list input)
        (s : state) :
  last_update s = millis L -> L <= upto ->
  timeOrdered L upto ins ->
  Z.of_nat (List.length (notifications (run stof ins s)))
  <= Z.of_nat (List.length (notifications s)) + (upto - L) / 1000.
Proof.
  revert L s. induction ins as [|i ins IH]; intros L s Hs HL Hord.
  { cbn [run]. assert (0 <= (upto - L) / 1000)
      by (apply Z.div_pos; lia). lia. }
  cbn [run].
  assert (Hother : (forall d, i <> Bus d) -> timeOrdered L upto ins ->
                   Z.of_nat (List.length (notifications (run stof ins
                                                        (step stof i s))))
                   <= Z.of_nat (List.length (notifications s))
                      + (upto - L) / 1000).
  { intros Hi Hrest. destruct (step_keeps_stamp stof i s Hi) as [H1 H2].
    rewrite <- H2. apply IH; [congruence|exact HL|exact Hrest]. }
  destruct i as [| |chr value|d|c|];
    try (apply Hother; [intros d'; discriminate|exact Hord]).
  clear Hother. cbn [timeOrdered] in Hord.
  destruct Hord as (H1 & H2 & H3 & Hrest).
  assert (Hrest' : timeOrdered L upto ins)
    by (apply (timeOrdered_weaken L (t_stamp d)); [lia|exact Hrest]).
  cbn [step]. destruct (dispatcherRegistered s); [|apply IH; assumption].
  destruct (Z_lt_le_dec (u32 (millis (t_check d) - last_update s)) 1000)
    as [Hin|Hout].
  - rewrite dispatcher_drops by exact Hin. apply IH; assumption.
  - rewrite dispatcher_accepts by exact Hout.
    rewrite Hs in Hout. apply accepted_is_late in Hout; [|exact H1].
    set (s1 := match type (body d) with
               | AZIMUTH =>
                   if (0 <? connectedCount s)%nat && hostStack s
                   then notify (azimuth d)
                               (setLastUpdate (millis (t_stamp d)) s)
                   else setLastUpdate (millis (t_stamp d)) s
               | _ => setLastUpdate (millis (t_stamp d)) s
               end).
    assert (Hs1 : last_update s1 = millis (t_stamp d)).
    { unfold s1. destruct (type (body d)); try reflexivity.
      destruct (_ && _); reflexivity. }
    assert (Hn1 : Z.of_nat (List.length (notifications s1))
                  <= Z.of_nat (List.length (notifications s)) + 1).
    { unfold s1. destruct (type (body d));
        [destruct (_ && _)| |]; cbn [notifications notify setLastUpdate];
        rewrite ?length_app; cbn [List.length]; lia. }
    specialize (IH (t_stamp d) s1 Hs1 H3 Hrest).
    assert (Hdiv : (upto - t_stamp d) / 1000 + 1 <= (upto - L) / 1000).
    { replace ((upto - t_stamp d) / 1000 + 1)
        with ((upto - t_stamp d + 1 * 1000) / 1000)
        by (rewrite Z.div_add by lia; reflexivity).
      apply Z.div_le_mono; lia. }
    lia.
Qed.

(** No notification is sent to nobody: while no peer is counted and
    none connects, the list of notifications sent stays as it is. *)
Theorem no_notification_without_peer (ins : list input) (s : state) :
  connectedCount s = O -> existsb isConnect ins = false ->
  notifications (run stof ins s) = notifications s /\
  connectedCount (run stof ins s) = O.
Proof.
  revert s. induction ins as [|i ins IH]; intros s Hcnt Hnone;
    cbn [run existsb] in *.
  { split; [reflexivity|exact Hcnt]. }
  apply orb_false_elim in Hnone. destruct Hnone as [Hi Hrest].
  assert (Hstep : notifications (step stof i s) = notifications s /\
                  connectedCount (step stof i s) = O).
  { destruct i as [| |chr value|d|c|]; cbn [step isConnect] in *.
    - discriminate.
    - cbn. rewrite Hcnt. split; reflexivity.
    - destruct (radio_fields _ _ (onWrite_radio stof chr value s))
        as (_ & _ & _ & H4 & _ & _ & _ & _ & _ & H10).
      rewrite H4, H10. split; [reflexivity|exact Hcnt].
    - destruct (dispatcherRegistered s); [|split; [reflexivity|exact Hcnt]].
      unfold ble_azimuth_dispatcher.
      destruct (_ <? 1000); [split; [reflexivity|exact Hcnt]|].
      destruct (type (body d)); cbn [connectedCount setLastUpdate];
        rewrite ?Hcnt; cbn; split; reflexivity || exact Hcnt.
    - split; [reflexivity|exact Hcnt].
    - unfold deinitTimer_callback, deinit, dropIdleTimer.
      cbn [connectedCount context serverEnable clientConnected].
      rewrite Hcnt.
      destruct (isGPSModel (context s) && _);
        [split; [reflexivity|cbn [connectedCount]; rewrite ?Hcnt; reflexivity]|].
      destruct (negb (serverEnable s) || clientConnected s);
        (split; [reflexivity|cbn [connectedCount]; rewrite ?Hcnt; reflexivity]). }
  destruct Hstep as [Hn Hc]. destruct (IH _ Hc Hrest) as [H1 H2].
  split; [congruence|exact H2].
Qed.

Lemma admissible_write_sets_clientConnected (ins : list input) (s : state) :
  sessionInvariant s -> admissible stof ins s = true ->
  existsb isGattWrite ins = true ->
  clientConnected (run stof ins s) = true.
Proof.
  revert s. induction ins as [|i ins IH]; intros s Hinv Hadm Hw;
    cbn [admissible existsb run] in *; [discriminate|].
  apply andb_prop in Hadm. destruct Hadm as [Hen Hadm].
  destruct (isGattWrite i) eqn:Ei.
  - destruct i as [| |chr value|d|c|]; try discriminate.
    cbn [enabled] in Hen. apply Nat.ltb_lt in Hen.
    destruct Hinv as [_ Hcnt].
    assert (Hcc : clientConnected s = true) by (apply Hcnt; lia).
    rewrite run_clientConnected, step_clientConnected, Hcc. reflexivity.
  - apply IH; [apply step_sessionInvariant; exact Hinv|exact Hadm|].
    exact Hw.
Qed.

(** A configuration write keeps the server for the rest of the boot: a
    write comes from a connected peer, whose connect has set
    [clientConnected] for good, so when the idle timer fires after a
    run that contains a write, [deinit] returns at once and the server
    keeps running, whatever the model and whether or not the spawn
    location written is valid. *)
Theorem write_prevents_idle_teardown (T : Z) (c : Context)
        (p : Preferences) (ins : list input) :
  admissible stof (ins ++ [IdleTimer]) (init T (boot c p)) = true ->
  existsb isGattWrite ins = true ->
  running (step stof IdleTimer (run stof ins (init T (boot c p)))) = true.
Proof.
  intros Hadm Hw.
  destruct (admissible_app stof _ _ _ Hadm) as [Hadm' Hpending].
  cbn [enabled] in Hpending.
  pose proof (run_sessionInvariant stof ins _ (init_sessionInvariant T c p))
    as [Hup _].
  specialize (Hup Hpending).
  pose proof (admissible_write_sets_clientConnected ins _
                (init_sessionInvariant T c p) Hadm' Hw) as Hcc.
  set (s := run stof ins (init T (boot c p))) in *.
  assert (Hrun : running (dropIdleTimer s) = true) by exact Hup.
  cbn [step]. unfold deinitTimer_callback.
  destruct (connectedCount (dropIdleTimer s)); [|exact Hrun].
  destruct (_ && _); [exact Hrun|].
  unfold deinit. cbn [dropIdleTimer serverEnable clientConnected].
  rewrite Hcc, orb_true_r. exact Hrun.
Qed.

End BleRuns.

Section BleRunsExamples.

Import Ble BleRun.

Lemma no_teardown_after_idle_timer_witness :
  let valid := setSpawnLocation (mkLocation (of_Z 48) (of_Z 11))
                                (mkContext false false Examples.origin
                                   (mkLocation (of_Z 500) (of_Z 0)) BLE
                                   (mkPointerColor 16 32) true) in
  let s := init 60 (boot (mkContext false false Examples.origin
                            (mkLocation (of_Z 500) (of_Z 0)) BLE
                            (mkPointerColor 16 32) true)
                         Examples.preferences0) in
  Gps.isValidGPSLocation (spawnLocation valid) = true /\
  running (run Examples.stofTable [ContextWrite valid]
               (step Examples.stofTable IdleTimer s)) = true.
Proof.
  intros valid s. split; [reflexivity|].
  apply (no_teardown_after_idle_timer Examples.stofTable s
           [ContextWrite valid]); reflexivity.
Defined.

Lemma notification_rate_bound_witness :
  let ins := [Examples.azimuthAt 1000 1; Examples.azimuthAt 1500 2;
              Examples.azimuthAt 2000 3; Examples.azimuthAt 2999 4;
              Examples.azimuthAt 3000 5] in
  Z.of_nat (List.length (notifications
                      (run Examples.stofTable ins
                           (onConnect Examples.server0))))
  <= 3.
Proof.
  intros ins.
  apply (notification_rate_bound Examples.stofTable 0 3000 ins
           (onConnect Examples.server0));
    [reflexivity|discriminate|cbn; lia].
Defined.

Lemma no_notification_without_peer_witness :
  notifications
    (run Examples.stofTable
         [Examples.azimuthAt 5000 1; Examples.azimuthAt 7000 2]
         Examples.server0)
  = [].
Proof.
  apply (no_notification_without_peer Examples.stofTable
           [Examples.azimuthAt 5000 1; Examples.azimuthAt 7000 2]
           Examples.server0); reflexivity.
Defined.

Lemma write_prevents_idle_teardown_witness :
  let gpsModel := mkContext false false Examples.origin
                            (mkLocation (of_Z 500) (of_Z 0)) BLE
                            (mkPointerColor 16 32) true in
  let ins := [Connect;
              GattWrite SPAWN_CHARACTERISTIC "12.345,67.890";
              Disconnect] in
  let s := run Examples.stofTable ins
               (init 60 (boot gpsModel Examples.preferences0)) in
  connectedCount s = O /\
  Gps.isValidGPSLocation (spawnLocation (context s)) = true /\
  running (step Examples.stofTable IdleTimer s) = true.
Proof.
  intros gpsModel ins s. split; [reflexivity|].
  split; [vm_compute; reflexivity|].
  apply (write_prevents_idle_teardown Examples.stofTable 60 gpsModel
           Examples.preferences0 ins); reflexivity.
Defined.

End BleRunsExamples.

(** ** The colour value published by [init], read by [onWrite] *)

Section HexRoundTrip.

Import Ble Gatt.

Lemma digit_cases (d : Z) :
  0 <= d < 16 ->
  In d [0; 1; 2; 3; 4; 5; 6; 7; 8; 9; 10; 11; 12; 13; 14; 15].
Proof. intros H. cbn. lia. Qed.

Ltac each_digit H :=
  apply digit_cases in H; cbn [In] in H;
  repeat (destruct H as [H|H]; [subst|]); [..|contradiction].

Lemma hexval_hexdigit (d : Z) : 0 <= d < 16 -> hexval (hexdigit d) = Some d.
Proof. intros H. each_digit H; reflexivity. Qed.

Lemma hexdigit_plain (d : Z) :
  0 <= d < 16 ->
  isspace (hexdigit d) = false /\
  Ascii.eqb (hexdigit d) ","%char = false /\
  Ascii.eqb (hexdigit d) "x"%char = false /\
  Ascii.eqb (hexdigit d) "X"%char = false /\
  hexdigit d <> "-"%char /\ hexdigit d <> "+"%char.
Proof. intros H. each_digit H; repeat split; discriminate. Qed.

Lemma hex_digits_hexstr (ds : list Z) (acc : Z) :
  Forall isDigit ds ->
  hex_digits (hexstr ds) acc
  = (fold_left (fun a d => 16 * a + d) ds acc, List.length ds).
Proof.
  revert acc. induction ds as [|d ds IH]; intros acc Hall; [reflexivity|].
  inversion Hall as [|? ? Hd Hrest]; subst.
  cbn [hexstr fold_right hex_digits fold_left List.length].
  rewrite (hexval_hexdigit d Hd).
  change (fold_right (fun d acc => String (hexdigit d) acc) EmptyString ds)
    with (hexstr ds).
  rewrite (IH _ Hrest). reflexivity.
Qed.

Lemma hex_aux_S (f : nat) (n : Z) (acc : string) :
  hex_aux (S f) n acc
  = if n / 16 =? 0 then String (hexdigit (n mod 16)) acc
    else hex_aux f (n / 16) (String (hexdigit (n mod 16)) acc).
Proof. reflexivity. Qed.

(** [hex_aux] writes the digits of [n], and at least one. *)
Lemma hex_aux_digits (fuel : nat) (n : Z) (tail : list Z) :
  0 <= n < 16 ^ Z.of_nat (S fuel) ->
  exists ds,
    hex_aux (S fuel) n (hexstr tail) = hexstr (ds ++ tail) /\
    Forall isDigit ds /\ ds <> [] /\
    fold_left (fun a d => 16 * a + d) ds 0 = n.
Proof.
  revert n tail. induction fuel as [|f IH]; intros n tail Hn.
  - exists [n mod 16].
    assert (Hsmall : n / 16 = 0) by (apply Z.div_small; cbn in Hn; lia).
    rewrite hex_aux_S, Hsmall. cbn [Z.eqb].
    split; [reflexivity|]. split.
    + constructor; [|constructor]. unfold isDigit.
      apply Z.mod_pos_bound. lia.
    + split; [discriminate|]. cbn [fold_left].
      rewrite Z.mod_small by (cbn in Hn; lia). lia.
  - rewrite hex_aux_S. destruct (Z.eqb_spec (n / 16) 0) as [Hz|Hnz].
    + exists [n mod 16]. split; [reflexivity|]. split.
      * constructor; [|constructor]. unfold isDigit.
        apply Z.mod_pos_bound. lia.
      * split; [discriminate|]. cbn [fold_left].
        pose proof (Z.div_mod n 16 ltac:(lia)). lia.
    + assert (Hq : 0 <= n / 16 < 16 ^ Z.of_nat (S f)).
      { split; [apply Z.div_pos; lia|].
        apply Z.div_lt_upper_bound; [lia|].
        replace (16 * 16 ^ Z.of_nat (S f)) with (16 ^ Z.of_nat (S (S f)));
          [lia|].
        rewrite (Nat2Z.inj_succ (S f)), Z.pow_succ_r by lia. reflexivity. }
      destruct (IH (n / 16) ((n mod 16) :: tail) Hq)
        as (ds & Hds & Hall & Hne & Hval).
      exists (ds ++ [n mod 16]).
      change (String (hexdigit (n mod 16)) (hexstr tail))
        with (hexstr ((n mod 16) :: tail)).
      rewrite Hds, <- app_assoc. split; [reflexivity|]. split.
      * apply Forall_app. split; [exact Hall|].
        constructor; [|constructor]. unfold isDigit.
        apply Z.mod_pos_bound. lia.
      * split; [destruct ds; discriminate|].
        rewrite fold_left_app, Hval. cbn [fold_left].
        pose proof (Z.div_mod n 16 ltac:(lia)). lia.
Qed.

Lemma sprintf_x_digits (v : Z) :
  0 <= v < 2 ^ 32 ->
  exists ds,
    sprintf_x v = hexstr ds /\ Forall isDigit ds /\ ds <> [] /\
    fold_left (fun a d => 16 * a + d) ds 0 = v.
Proof.
  intros Hv. unfold sprintf_x, u32. rewrite Z.mod_small by exact Hv.
  destruct (hex_aux_digits 7 v [] ltac:(cbn; lia))
    as (ds & Hds & Hall & Hne & Hval).
  exists ds. rewrite app_nil_r in Hds. repeat split; assumption.
Qed.

(** [strtol] on a string of hex digits reads all of it. *)
Lemma strtol16_hexstr (ds : list Z) :
  Forall isDigit ds -> ds <> [] ->
  strtol16 (hexstr ds)
  = (Z.min (fold_left (fun a d => 16 * a + d) ds 0) LONG_MAX,
     List.length ds).
Proof.
  intros Hall Hne.
  destruct ds as [|d ds]; [now elim Hne|]. clear Hne.
  pose proof (hex_digits_hexstr (d :: ds) 0 Hall) as Hdig.
  inversion Hall as [|? ? Hd Hrest]; subst.
  assert (Hpre : forall s,
             (s = EmptyString \/
              exists d2 r, isDigit d2 /\ s = String (hexdigit d2) r) ->
             strtol16 (String (hexdigit d) s)
             = let (v, n) := hex_digits (String (hexdigit d) s) 0 in
               match n with
               | O => (0, O)
               | _ => (Z.min v LONG_MAX, n)
               end).
  { intros s Hs. unfold strtol16.
    destruct Hs as [->|(d2 & r & Hd2 & ->)].
    - each_digit Hd; reflexivity.
    - destruct (hexdigit_plain d2 Hd2) as (_ & _ & Hx & HX & _).
      remember (hexdigit d2) as c2 eqn:Ec2. clear Ec2 Hd2 d2.
      each_digit Hd;
        cbn -[Ascii.eqb hex_digits hexval Z.min LONG_MAX];
        rewrite ?Hx, ?HX; try reflexivity; destruct r; reflexivity. }
  change (hexstr (d :: ds)) with (String (hexdigit d) (hexstr ds)) in *.
  rewrite Hpre.
  - rewrite Hdig. reflexivity.
  - destruct ds as [|d2 ds]; [left; reflexivity|right].
    inversion Hrest; subst. exists d2, (hexstr ds). split; [assumption|].
    reflexivity.
Qed.

(** What [sprintf] writes for [%x] is read back by [strtol] in base 16,
    for every value a [long] holds without a sign. *)
Lemma strtol16_sprintf_x (v : Z) :
  0 <= v <= LONG_MAX ->
  exists n, strtol16 (sprintf_x v) = (v, S n).
Proof.
  intros Hv.
  destruct (sprintf_x_digits v) as (ds & Hs & Hall & Hne & Hval).
  { unfold LONG_MAX in Hv. lia. }
  rewrite Hs, (strtol16_hexstr ds Hall Hne), Hval.
  rewrite Z.min_l by lia.
  destruct ds as [|d ds]; [now elim Hne|]. exists (List.length ds).
  reflexivity.
Qed.

Lemma split_at_hexstr (ds : list Z) (rest : string) :
  Forall isDigit ds ->
  split_at ","%char (hexstr ds ++ String ","%char rest)
  = hexstr ds :: split_at ","%char rest /\
  split_at ","%char (hexstr ds) = [hexstr ds].
Proof.
  induction ds as [|d ds IH]; intros Hall.
  - split; reflexivity.
  - inversion Hall as [|? ? Hd Hrest]; subst.
    destruct (IH Hrest) as [IH1 IH2].
    destruct (hexdigit_plain d Hd) as (_ & Hc & _).
    change (hexstr (d :: ds)) with (String (hexdigit d) (hexstr ds)).
    cbn [append split_at]. rewrite Hc, IH1, IH2. split; reflexivity.
Qed.

(** Colours published, colours parsed: [init] writes the spawn colour
    first and the south colour second, [onWrite] reads the south colour
    first and the spawn colour second.  So a peer that writes back the
    value the characteristic was given at [init] swaps the two colours,
    in the context and in the store. *)
Theorem published_colour_written_back_is_swapped (s : Ble.state) :
  0 <= southColor (color (context s)) <= LONG_MAX ->
  0 <= spawnColor (color (context s)) <= LONG_MAX ->
  color (context (onWrite_color (colorBuffer (color (context s))) s))
  = mkPointerColor (spawnColor (color (context s)))
                   (southColor (color (context s))) /\
  savedPointerColor
    (preferences (onWrite_color (colorBuffer (color (context s))) s))
  = mkPointerColor (spawnColor (color (context s)))
                   (southColor (color (context s))).
Proof.
  intros Hsouth Hspawn.
  destruct (sprintf_x_digits (spawnColor (color (context s))))
    as (da & Ha & Halla & _); [unfold LONG_MAX in *; lia|].
  destruct (sprintf_x_digits (southColor (color (context s))))
    as (db & Hb & Hallb & _); [unfold LONG_MAX in *; lia|].
  destruct (strtol16_sprintf_x _ Hspawn) as (na & Hna).
  destruct (strtol16_sprintf_x _ Hsouth) as (nb & Hnb).
  assert (Hsplit : split (colorBuffer (color (context s))) ","%char
                   = [sprintf_x (spawnColor (color (context s)));
                      sprintf_x (southColor (color (context s)))]).
  { unfold split, colorBuffer. rewrite Ha, Hb.
    change ("," ++ hexstr db)%string with (String ","%char (hexstr db)).
    rewrite (proj1 (split_at_hexstr da _ Halla)).
    rewrite (proj2 (split_at_hexstr db EmptyString Hallb)). reflexivity. }
  destruct (color_write_two_tokens _ _ _ _ s Hsplit) as [Hc Hp].
  rewrite Hc, Hp, Hna, Hnb. cbn [fst snd Nat.eqb]. split; reflexivity.
Qed.

End HexRoundTrip.

Section HexRoundTripExamples.

Import Ble Gatt.

Lemma published_colour_written_back_is_swapped_witness :
  colorBuffer (color (context Examples.server0)) = "20,10"%string /\
  color (context (onWrite_color "20,10" Examples.server0))
  = mkPointerColor 32 16.
Proof.
  split; [reflexivity|].
  apply (published_colour_written_back_is_swapped Examples.server0);
    cbn; unfold LONG_MAX; lia.
Defined.

End HexRoundTripExamples.

(** ** All the branches of [onWrite] *)

Section GattWrites.

Import Ble Gatt.

Variable stof : string -> stof_result.
Variable isGPSModelOf : Z -> bool.

Lemma at0_byte (value : string) : 0 <= at0 value <= 255.
Proof.
  destruct value as [|c rest]; cbn [at0]; [lia|].
  pose proof (N_ascii_bounded c). lia.
Qed.

(** No write changes the session: the connection flags and count, the
    stamp of the rate limit, the timers and the notifications sent are
    as before, whatever the characteristic and the payload; and writes
    to the two virtual characteristics, to the azimuth and to the info
    characteristic change nothing at all. *)
Theorem writes_leave_the_session_alone (posted : bool) (chr : uuid)
        (value : string) (s s' : Gatt.state) :
  onWrite stof isGPSModelOf posted chr value s = Done s' ->
  radio (server s') = radio (server s) /\
  (chr = VIRTUAL_LOCATION_CHARACTERISTIC_UUID \/
   chr = VIRTUAL_AZIMUTH_CHARACTERISTIC_UUID \/
   chr = AZIMUTH_CHARACHERSITC_UUID \/
   chr = INFO_CHARACTERISTIC_UUID -> s' = s).
Proof.
  destruct chr; cbn [onWrite]; unfold post.
  - intros [= <-]. split; [apply onWrite_spawn_radio|].
    intros [H|[H|[H|H]]]; discriminate H.
  - intros [= <-]. split; [apply onWrite_color_radio|].
    intros [H|[H|[H|H]]]; discriminate H.
  - intros [= <-]. split; reflexivity.
  - intros [= <-]. split; reflexivity.
  - destruct posted; [|discriminate]. intros [= <-].
    split; [reflexivity|]. intros [H|[H|[H|H]]]; discriminate H.
  - destruct (at0 value =? 0); [|destruct (at0 value =? 1)];
      intros [= <-]; (split; [reflexivity|]);
      intros [H|[H|[H|H]]]; discriminate H.
  - destruct (String.length value =? 1)%nat; intros [= <-];
      (split; [reflexivity|]); intros [H|[H|[H|H]]]; discriminate H.
  - destruct posted; [|discriminate]. intros [= <-].
    split; [reflexivity|]. intros [H|[H|[H|H]]]; discriminate H.
  - destruct (String.length value =? 1)%nat; intros [= <-];
      (split; [reflexivity|]); intros [H|[H|[H|H]]]; discriminate H.
  - intros [= <-]. split; reflexivity.
  - intros [= <-]. split; reflexivity.
Qed.

Lemma onWrite_color_spawn (value : string) (s : Ble.state) :
  spawnLocation (context (onWrite_color value s))
  = spawnLocation (context s) /\
  savedSpawnLocation (preferences (onWrite_color value s))
  = savedSpawnLocation (preferences s).
Proof.
  unfold onWrite_color.
  destruct (split value ","%char) as [|c0 [|c1 rest]];
    [split; reflexivity| |].
  - destruct (strtol16 c0) as [v n]. split; reflexivity.
  - destruct (strtol16 c0) as [v0 n0], (strtol16 c1) as [v1 n1].
    split; reflexivity.
Qed.

Lemma onWrite_spawn_sync (value : string) (s : Ble.state) :
  savedSpawnLocation (preferences s) = spawnLocation (context s) ->
  savedSpawnLocation (preferences (onWrite_spawn stof value s))
  = spawnLocation (context (onWrite_spawn stof value s)).
Proof.
  intros H. unfold onWrite_spawn.
  destruct (find _ value); [|exact H].
  destruct (stof _); try exact H.
  destruct (stof _); try exact H. reflexivity.
Qed.

Lemma onWrite_inSync (posted : bool) (chr : uuid) (value : string)
      (s s' : Gatt.state) :
  inSync s -> onWrite stof isGPSModelOf posted chr value s = Done s' ->
  inSync s'.
Proof.
  intros (H1 & H2 & H3 & H4 & H5 & H6 & H7).
  pose proof (at0_byte value) as Hb.
  destruct chr; cbn [onWrite]; unfold post.
  - intros [= <-]. unfold inSync. cbn [server settings].
    split; [apply onWrite_spawn_sync; exact H1|]. tauto.
  - intros [= <-]. unfold inSync. cbn [server settings].
    destruct (onWrite_color_spawn value (server s)) as [-> ->]. tauto.
  - intros [= <-]. unfold inSync. tauto.
  - intros [= <-]. unfold inSync. tauto.
  - destruct posted; [|discriminate]. intros [= <-]. unfold inSync. cbn.
    tauto.
  - destruct (at0 value =? 0); [|destruct (at0 value =? 1)];
      intros [= <-]; unfold inSync; cbn; tauto.
  - destruct (String.length value =? 1)%nat; intros [= <-];
      unfold inSync; cbn; tauto.
  - destruct posted; [|discriminate]. intros [= <-]. unfold inSync. cbn.
    tauto.
  - destruct (String.length value =? 1)%nat; intros [= <-];
      unfold inSync; cbn; tauto.
  - intros [= <-]. unfold inSync. tauto.
  - intros [= <-]. unfold inSync. tauto.
Qed.

(** Store and context stay in step on everything but the colour: if the
    saved spawn location, brightness, server mode and model equal the
    ones in the context, and the pixel driver has the brightness, then
    they still do after any sequence of writes; and brightness and
    model remain bytes. *)
Theorem writes_keep_settings_in_sync (ws : list (bool * uuid * string))
        (s s' : Gatt.state) :
  inSync s -> writes stof isGPSModelOf ws s = Done s' -> inSync s'.
Proof.
  revert s. induction ws as [|[[posted chr] value] ws IH]; intros s Hs;
    cbn [writes].
  - intros [= <-]. exact Hs.
  - destruct (onWrite stof isGPSModelOf posted chr value s) as [s1|] eqn:E;
      [|discriminate].
    apply IH. exact (onWrite_inSync _ _ _ _ _ Hs E).
Qed.

(** A server-mode write looks at [value[0]] only: the bytes after the
    first are ignored, and an empty payload is read as the byte 0 and
    selects the WIFI mode. *)
Theorem server_mode_write_reads_first_byte (posted : bool) (c : ascii)
        (rest : string) (s : Gatt.state) :
  onWrite stof isGPSModelOf posted SERVER_MODE_CHARACTERISTIC_UUID
          (String c rest) s
  = onWrite stof isGPSModelOf posted SERVER_MODE_CHARACTERISTIC_UUID
            (String c EmptyString) s /\
  onWrite stof isGPSModelOf posted SERVER_MODE_CHARACTERISTIC_UUID
          EmptyString s
  = Done (mkState (server s) (setServerMode ServerMode.WIFI (settings s))) /\
  (c <> "000"%char -> c <> "001"%char ->
   onWrite stof isGPSModelOf posted SERVER_MODE_CHARACTERISTIC_UUID
           (String c rest) s = Done s).
Proof.
  split; [reflexivity|]. split; [reflexivity|].
  intros H0 H1. cbn [onWrite at0].
  assert (Hn0 : Z.of_N (N_of_ascii c) <> 0).
  { intros H. apply H0. rewrite <- (ascii_N_embedding c).
    replace (N_of_ascii c) with 0%N by lia. reflexivity. }
  assert (Hn1 : Z.of_N (N_of_ascii c) <> 1).
  { intros H. apply H1. rewrite <- (ascii_N_embedding c).
    replace (N_of_ascii c) with 1%N by lia. reflexivity. }
  destruct (Z.eqb_spec (Z.of_N (N_of_ascii c)) 0); [contradiction|].
  destruct (Z.eqb_spec (Z.of_N (N_of_ascii c)) 1); [contradiction|].
  reflexivity.
Qed.

(** Reboot and calibrate writes do not read their payload: whatever it
    is, one event (factory reset, or sensor calibrate) with source BLE
    joins the event loop behind the ones waiting, and nothing else
    changes. *)
Theorem reboot_and_calibrate_post_one_event (value value' : string)
        (s : Gatt.state) :
  onWrite stof isGPSModelOf true REBOOT_CHARACTERISTIC_UUID value s
  = onWrite stof isGPSModelOf true REBOOT_CHARACTERISTIC_UUID value' s /\
  onWrite stof isGPSModelOf true CALIBRATE_CHARACTERISTIC_UUID value s
  = onWrite stof isGPSModelOf true CALIBRATE_CHARACTERISTIC_UUID value' s /\
  (exists s1,
      onWrite stof isGPSModelOf true REBOOT_CHARACTERISTIC_UUID value s
      = Done s1 /\
      server s1 = server s /\
      eventLoop (settings s1)
      = eventLoop (settings s) ++ [mkBody FACTORY_RESET BLE] /\
      setEventLoop (eventLoop (settings s)) (settings s1) = settings s) /\
  (exists s1,
      onWrite stof isGPSModelOf true CALIBRATE_CHARACTERISTIC_UUID value s
      = Done s1 /\
      server s1 = server s /\
      eventLoop (settings s1)
      = eventLoop (settings s) ++ [mkBody SENSOR_CALIBRATE BLE] /\
      setEventLoop (eventLoop (settings s)) (settings s1) = settings s).
Proof.
  split; [reflexivity|]. split; [reflexivity|].
  split; eexists; (split; [reflexivity|]); repeat split;
    destruct s as [sv [b sb pb m sm md smd q]]; reflexivity.
Qed.

(** A reboot or calibrate write quiets the azimuth notifications: its
    event reaches [ble_azimuth_dispatcher] through the event loop, and
    when the dispatcher lets it pass it refreshes the stamp without
    notifying, so that no azimuth event dispatched within 1000 ms of
    that is notified. *)
Theorem posted_event_silences_azimuth (chr : uuid) (value : string)
        (t t' az : Z) (s s1 : Gatt.state) (ins : list input) :
  chr = REBOOT_CHARACTERISTIC_UUID \/ chr = CALIBRATE_CHARACTERISTIC_UUID ->
  eventLoop (settings s) = [] ->
  dispatcherRegistered (server s) = true ->
  1000 <= u32 (millis t - last_update (server s)) ->
  onWrite stof isGPSModelOf true chr value s = Done s1 ->
  Forall (inWindow t') ins ->
  let s2 := dispatchNext stof t t' az s1 in
  eventLoop (settings s2) = [] /\
  last_update (server s2) = millis t' /\
  notifications (server s2) = notifications (server s) /\
  notifications (run stof ins (server s2)) = notifications (server s).
Proof.
  intros Hchr Hq Hreg Hout Hw Hwin s2.
  assert (Hs2 : exists ty,
             (ty = FACTORY_RESET \/ ty = SENSOR_CALIBRATE) /\
             s2 = mkState (step stof (Bus (mkDelivery t t' (mkBody ty BLE) az))
                                (server s))
                          (setEventLoop [] (settings s1))).
  { unfold s2, dispatchNext.
    destruct Hchr as [-> | ->]; cbn [onWrite post] in Hw;
      injection Hw as <-; cbn [settings eventLoop setEventLoop server];
      rewrite Hq; cbn [app]; eexists; (split; [|reflexivity]); tauto. }
  destruct Hs2 as (ty & Hty & ->). cbn [server settings].
  assert (Hstep : step stof (Bus (mkDelivery t t' (mkBody ty BLE) az))
                       (server s)
                  = setLastUpdate (millis t') (server s)).
  { cbn [step t_check t_stamp body azimuth]. rewrite Hreg.
    rewrite (dispatcher_accepts _ _ _ _ _ Hout).
    destruct Hty as [-> | ->]; reflexivity. }
  rewrite Hstep. split; [reflexivity|]. split; [reflexivity|].
  split; [reflexivity|].
  destruct (run_in_window stof t' ins (setLastUpdate (millis t') (server s))
              eq_refl Hwin) as [_ Hn].
  rewrite Hn. reflexivity.
Qed.

(** With two tokens or more the colour write takes the first two: a
    token that [strtol] converts replaces its colour (south first,
    spawn second), a token that does not convert leaves its colour,
    further tokens are ignored, and store and context receive the same
    pair. *)
Theorem two_token_colour_write (value c0 c1 : string) (rest : list string)
        (s : Ble.state) :
  split value ","%char = c0 :: c1 :: rest ->
  color (context (onWrite_color value s))
  = mkPointerColor
      (if (snd (strtol16 c0) =? 0)%nat then southColor (color (context s))
       else fst (strtol16 c0))
      (if (snd (strtol16 c1) =? 0)%nat then spawnColor (color (context s))
       else fst (strtol16 c1)) /\
  savedPointerColor (preferences (onWrite_color value s))
  = color (context (onWrite_color value s)).
Proof.
  intros Hsplit.
  destruct (color_write_two_tokens value c0 c1 rest s Hsplit) as [Hc Hp].
  split; [exact Hc|]. rewrite Hp, Hc. reflexivity.
Qed.

(** With one token the colour write never reaches the context: the
    context keeps its colours, while the store takes the token as south
    colour when [strtol] consumed exactly one character.  After a
    one-character write of a new south colour, store and context
    disagree. *)
Theorem one_token_colour_write_skips_context (value c0 : string)
        (s : Ble.state) :
  split value ","%char = [c0] ->
  context (onWrite_color value s) = context s /\
  (snd (strtol16 c0) = 1%nat ->
   savedPointerColor (preferences (onWrite_color value s))
   = mkPointerColor (fst (strtol16 c0)) (spawnColor (color (context s))) /\
   (fst (strtol16 c0) <> southColor (color (context s)) ->
    savedPointerColor (preferences (onWrite_color value s))
    <> color (context (onWrite_color value s)))) /\
  (snd (strtol16 c0) <> 1%nat ->
   savedPointerColor (preferences (onWrite_color value s))
   = color (context s)).
Proof.
  intros Hsplit.
  destruct (color_write_one_token value c0 s Hsplit) as [Hc Hp].
  split; [exact Hc|]. split.
  - intros H1. rewrite Hp, Hc, H1. cbn [Nat.eqb]. split; [reflexivity|].
    intros Hne Heq. apply Hne.
    rewrite <- Heq. reflexivity.
  - intros Hn1. rewrite Hp.
    destruct (Nat.eqb_spec (snd (strtol16 c0)) 1); [contradiction|].
    reflexivity.
Qed.

End GattWrites.

Section GattWritesExamples.

Import Ble Gatt.

Lemma writes_leave_the_session_alone_witness :
  exists s',
    onWrite Examples.stofTable MoreExamples.gpsIsOne true
            CUSTOM_MODEL_CHARACTERISTIC_UUID
            (String "001"%char EmptyString) MoreExamples.gatt0
    = Done s' /\
    isGPSModel (context (server s')) = true /\
    radio (server s') = radio (server MoreExamples.gatt0).
Proof.
  eexists. split; [reflexivity|]. split; [reflexivity|].
  exact (proj1 (writes_leave_the_session_alone Examples.stofTable
                  MoreExamples.gpsIsOne true
                  CUSTOM_MODEL_CHARACTERISTIC_UUID
                  (String "001"%char EmptyString)
                  MoreExamples.gatt0 _ eq_refl)).
Defined.

Lemma writes_keep_settings_in_sync_witness :
  exists s',
    writes Examples.stofTable MoreExamples.gpsIsOne
           [(true, BRIGHTNESS_CHARACTERISTIC_UUID,
             String "255"%char EmptyString);
            (true, BRIGHTNESS_CHARACTERISTIC_UUID, "ab"%string);
            (true, SPAWN_CHARACTERISTIC_UUID, "12.345,67.890"%string);
            (true, SERVER_MODE_CHARACTERISTIC_UUID, ""%string)]
           MoreExamples.gatt0 = Done s' /\
    brightness (settings s') = 255 /\
    serverMode (settings s') = ServerMode.WIFI /\
    inSync s'.
Proof.
  eexists. split; [vm_compute; reflexivity|].
  split; [reflexivity|]. split; [reflexivity|].
  apply (writes_keep_settings_in_sync Examples.stofTable
           MoreExamples.gpsIsOne
           [(true, BRIGHTNESS_CHARACTERISTIC_UUID,
             String "255"%char EmptyString);
            (true, BRIGHTNESS_CHARACTERISTIC_UUID, "ab"%string);
            (true, SPAWN_CHARACTERISTIC_UUID, "12.345,67.890"%string);
            (true, SERVER_MODE_CHARACTERISTIC_UUID, ""%string)]
           MoreExamples.gatt0).
  - unfold inSync. cbn. repeat split; lia.
  - vm_compute. reflexivity.
Defined.

Lemma server_mode_write_reads_first_byte_witness :
  onWrite Examples.stofTable MoreExamples.gpsIsOne true
          SERVER_MODE_CHARACTERISTIC_UUID "7 and more" MoreExamples.gatt0
  = Done MoreExamples.gatt0.
Proof.
  apply (server_mode_write_reads_first_byte Examples.stofTable
           MoreExamples.gpsIsOne true "7"%char " and more"
           MoreExamples.gatt0); discriminate.
Defined.

Lemma posted_event_silences_azimuth_witness :
  exists s1,
    onWrite Examples.stofTable MoreExamples.gpsIsOne true
            CALIBRATE_CHARACTERISTIC_UUID "1" MoreExamples.gatt0
    = Done s1 /\
    notifications
      (run Examples.stofTable
           [Examples.azimuthAt 5200 90; Examples.azimuthAt 5900 91]
           (server (dispatchNext Examples.stofTable 5000 5001 0 s1)))
    = [].
Proof.
  eexists. split; [reflexivity|].
  apply (posted_event_silences_azimuth Examples.stofTable
           MoreExamples.gpsIsOne CALIBRATE_CHARACTERISTIC_UUID "1"
           5000 5001 0 MoreExamples.gatt0 _
           [Examples.azimuthAt 5200 90; Examples.azimuthAt 5900 91]).
  - right. reflexivity.
  - reflexivity.
  - reflexivity.
  - vm_compute. intros H. discriminate H.
  - reflexivity.
  - repeat constructor; cbn; lia.
Defined.

Lemma two_token_colour_write_witness :
  color (context (onWrite_color "ab,zz,cd" Examples.server0))
  = mkPointerColor 0xAB 32 /\
  savedPointerColor (preferences (onWrite_color "ab,zz,cd" Examples.server0))
  = color (context (onWrite_color "ab,zz,cd" Examples.server0)).
Proof.
  exact (two_token_colour_write "ab,zz,cd" "ab" "zz" ["cd"%string]
           Examples.server0 eq_refl).
Defined.

Lemma one_token_colour_write_skips_context_witness :
  color (context (onWrite_color "a" Examples.server0))
  = mkPointerColor 16 32 /\
  savedPointerColor (preferences (onWrite_color "a" Examples.server0))
  = mkPointerColor 10 32.
Proof.
  destruct (one_token_colour_write_skips_context "a" "a" Examples.server0
              eq_refl) as (Hc & Hone & _).
  rewrite Hc. split; [reflexivity|]. exact (proj1 (Hone eq_refl)).
Defined.

End GattWritesExamples.
